(** * qbo_receipt_processor: a shallow embedding of [qbo_receipt_processor2.py]

    The script authenticates against the QuickBooks Online API, keeps the
    tokens in [tokens.json], fetches company data and a transaction report,
    and flattens the report into a list of dictionaries.

    Python values are embedded as follows.
    - [str] is [string]; a character is a code point below 256.
    - [None] where a string may stand is [option string] with [None].
    - A [dict] is an insertion-ordered association list with unique keys
      ([Dict]); the process environment, the OS keychain and the file
      system are finite maps ([gmap]).
    - Code with effects runs in the monad [M]: a world is passed along and
      an exception ends the run, keeping the effects made before it. *)

From Stdlib Require Import ZArith Ascii String.
From stdpp Require Import gmap strings list fin_maps.

Local Open Scope string_scope.
Local Open Scope list_scope.

(** ** Python dictionaries *)

Module Dict.

Definition t (V : Type) : Type := list (string * V).

Definition empty {V} : t V := [].

(** [d[k] = v]: an existing key keeps its position and takes the new
    value, a new key goes to the end. *)
Fixpoint set {V} (k : string) (v : V) (d : t V) : t V :=
  match d with
  | [] => [(k, v)]
  | (k', v') :: d' =>
      if decide (k' = k) then (k', v) :: d' else (k', v') :: set k v d'
  end.

(** [d.get(k)] *)
Fixpoint get {V} (k : string) (d : t V) : option V :=
  match d with
  | [] => None
  | (k', v') :: d' => if decide (k' = k) then Some v' else get k d'
  end.

Definition keys {V} (d : t V) : list string := d.*1.

(** [d.update(pairs)] *)
Definition update {V} (d : t V) (pairs : list (string * V)) : t V :=
  fold_left (fun acc kv => set kv.1 kv.2 acc) pairs d.

(** [dict(pairs)] *)
Definition of_pairs {V} (pairs : list (string * V)) : t V :=
  update empty pairs.

End Dict.

(** ** The report document and the flattener *)

(** The report as [parse_transaction_list] reads it.  A key read with
    [.get] may be missing (an [option] field); [ColTitle] is read with a
    subscript, so every column of a report document carries it. *)

Record column := { ColTitle : string }.
Record cell := { value : option string }.
Record row := { type : option string; ColData : option (list cell) }.
Record columns := { Column : option (list column) }.
Record rows := { Row : option (list row) }.
Record report := { Columns : option columns; Rows : option rows }.

(** [report_json.get("Columns", {}).get("Column", [])] *)
Definition report_columns (report_json : report) : list column :=
  default [] (Column (default {| Column := None |} (Columns report_json))).

(** [report_json.get("Rows", {}).get("Row", [])] *)
Definition report_rows (report_json : report) : list row :=
  default [] (Row (default {| Row := None |} (Rows report_json))).

(** [row.get("type") == "Data"] *)
Definition is_data_row (r : row) : bool := bool_decide (type r = Some "Data").

(** [[c.get("value") for c in row.get("ColData", [])]] *)
Definition row_values (r : row) : list (option string) :=
  map value (default [] (ColData r)).

Definition parse_transaction_list (report_json : report)
  : list (Dict.t (option string)) :=
  let cols := map ColTitle (report_columns report_json) in
  fold_left
    (fun out row =>
       if is_data_row row then
         let values := row_values row in
         out ++ [Dict.of_pairs (zip cols values)]
       else out)
    (report_rows report_json) [].

(** The column titles of a report, in the report's order. *)
Definition column_titles (report_json : report) : list string :=
  map ColTitle (report_columns report_json).

(** The record built from one row. *)
Definition flatten_row (cols : list string) (r : row) : Dict.t (option string) :=
  Dict.of_pairs (zip cols (row_values r)).

Definition mk_report (titles : list string) (rs : list row) : report :=
  {| Columns := Some {| Column := Some (map Build_column titles) |};
     Rows := Some {| Row := Some rs |} |}.

Definition mk_row (ty : string) (vals : list string) : row :=
  {| type := Some ty; ColData := Some (map (fun v => {| value := Some v |}) vals) |}.

(** What one flattened record looks like, given the titles and its row. *)
Definition record_of_row (cols : list string) (r : row) (rec : Dict.t (option string)) : Prop :=
  NoDup (Dict.keys rec) ∧
  sublist (Dict.keys rec) cols ∧
  (∀ k, k ∈ Dict.keys rec ↔ k ∈ take (length (row_values r)) cols) ∧
  ((length cols ≤ length (row_values r))%nat → ∀ k, k ∈ Dict.keys rec ↔ k ∈ cols) ∧
  ((length cols ≤ length (row_values r))%nat → NoDup cols → Dict.keys rec = cols).

(** A valid report document: every data row has a cell for every column. *)
Definition valid_report (report_json : report) : Prop :=
  Forall (λ r, (length (column_titles report_json) ≤ length (row_values r))%nat)
    (List.filter is_data_row (report_rows report_json)).

(** What the record of a data row of a valid report looks like. *)
Definition record_of_columns (cols : list string) (rec : Dict.t (option string)) : Prop :=
  (∀ k, k ∈ Dict.keys rec ↔ k ∈ cols) ∧
  NoDup (Dict.keys rec) ∧
  sublist (Dict.keys rec) cols ∧
  (NoDup cols → Dict.keys rec = cols).

(** Two columns, one data row with a single cell. *)
Definition short_row_report : report :=
  mk_report ["Date"; "Amount"] [mk_row "Data" ["2024-01-01"]].

(** ** JSON values, [json.dumps(_, indent=2)] and [json.loads]

    The [json] module belongs to Python's library.  It is modelled for
    null, booleans, strings, arrays and objects; numbers, and code points
    of 256 and above, are outside the model and reported as such. *)

#[local] Set Warnings "-register-all".

Inductive json :=
  | JNull
  | JBool (b : bool)
  | JStr (s : string)
  | JArr (items : list json)
  | JObj (members : list (string * json)).

Module Json.

Definition dquote : ascii := "034"%char.
Definition backslash : ascii := "092"%char.
Definition newline : ascii := "010"%char.

Definition hex_digit (n : N) : ascii :=
  if (n <? 10)%N then ascii_of_N (48 + n) else ascii_of_N (87 + n).

(** [ESCAPE_ASCII] of [json.encoder], as used with [ensure_ascii=True]. *)
Definition escape_char (c : ascii) : string :=
  let n := N_of_ascii c in
  if (n =? 34)%N then String backslash (String dquote "")
  else if (n =? 92)%N then String backslash (String backslash "")
  else if (n =? 10)%N then String backslash "n"
  else if (n =? 13)%N then String backslash "r"
  else if (n =? 9)%N then String backslash "t"
  else if (n =? 8)%N then String backslash "b"
  else if (n =? 12)%N then String backslash "f"
  else if ((32 <=? n) && (n <=? 126))%N then String c ""
  else String backslash
         (String "u" (String "0" (String "0"
            (String (hex_digit (n / 16)) (String (hex_digit (n mod 16)) ""))))).

Fixpoint encode_body (s : string) : string :=
  match s with
  | "" => ""
  | String c s' => escape_char c +:+ encode_body s'
  end.

Definition encode_string (s : string) : string :=
  String dquote (encode_body s +:+ String dquote "").

Fixpoint join (sep : string) (l : list string) : string :=
  match l with
  | [] => ""
  | [x] => x
  | x :: l' => x +:+ sep +:+ join sep l'
  end.

Fixpoint spaces (n : nat) : string :=
  match n with O => "" | S n' => String " " (spaces n') end.

(** A line break followed by the indentation of nesting depth [level]. *)
Definition newline_indent (level : nat) : string :=
  String newline (spaces (2 * level)).

(** [json.dumps(v, indent=2)] at nesting depth [level]. *)
Fixpoint dumps_at (level : nat) (v : json) : string :=
  match v with
  | JNull => "null"
  | JBool true => "true"
  | JBool false => "false"
  | JStr s => encode_string s
  | JArr [] => "[]"
  | JArr items =>
      "[" +:+ newline_indent (S level)
          +:+ join ("," +:+ newline_indent (S level)) (map (dumps_at (S level)) items)
          +:+ newline_indent level +:+ "]"
  | JObj [] => "{}"
  | JObj members =>
      "{" +:+ newline_indent (S level)
          +:+ join ("," +:+ newline_indent (S level))
               (map (fun kv => let '(k, x) := kv in
                               encode_string k +:+ ": " +:+ dumps_at (S level) x)
                    members)
          +:+ newline_indent level +:+ "}"
  end.

Definition dumps (v : json) : string := dumps_at 0 v.

(** *** Scanning *)

Inductive token :=
  | TLBrace | TRBrace | TLBracket | TRBracket | TColon | TComma
  | TString (s : string) | TNull | TTrue | TFalse.

Inductive lexed :=
  | Tokens (ts : list token)
  | BadJson          (* [json.JSONDecodeError] *)
  | BeyondModel.     (* valid for Python, not modelled here *)

Definition push (t : token) (r : lexed) : lexed :=
  match r with
  | Tokens ts => Tokens (t :: ts)
  | other => other
  end.

Inductive lex_state :=
  | Outside                   (* between tokens *)
  | InString (acc : string).  (* in a string literal, [acc] read so far *)

Definition is_ws (c : ascii) : bool :=
  let n := N_of_ascii c in
  ((n =? 32) || (n =? 9) || (n =? 10) || (n =? 13))%N.

Definition hex_value (c : ascii) : option N :=
  let n := N_of_ascii c in
  if ((48 <=? n) && (n <=? 57))%N then Some (n - 48)%N
  else if ((97 <=? n) && (n <=? 102))%N then Some (n - 87)%N
  else if ((65 <=? n) && (n <=? 70))%N then Some (n - 55)%N
  else None.

(** The code point written by four hex digits. *)
Definition unicode_escape (h1 h2 h3 h4 : ascii) : option N :=
  match hex_value h1, hex_value h2, hex_value h3, hex_value h4 with
  | Some a, Some b, Some c, Some d => Some (((a * 16 + b) * 16 + c) * 16 + d)%N
  | _, _, _, _ => None
  end.

(** [BACKSLASH] of [json.decoder]. *)
Definition simple_escape (e : ascii) : option ascii :=
  let n := N_of_ascii e in
  if (n =? 34)%N then Some dquote
  else if (n =? 92)%N then Some backslash
  else if (n =? 47)%N then Some "/"%char
  else if (n =? 98)%N then Some "008"%char
  else if (n =? 102)%N then Some "012"%char
  else if (n =? 110)%N then Some "010"%char
  else if (n =? 114)%N then Some "013"%char
  else if (n =? 116)%N then Some "009"%char
  else None.

Definition starts_number (c : ascii) : bool :=
  let n := N_of_ascii c in
  ((n =? 45) || ((48 <=? n) && (n <=? 57)) || (n =? 78) || (n =? 73))%N.

Fixpoint lex (st : lex_state) (s : string) : lexed :=
  match st, s with
  | Outside, "" => Tokens []
  | InString _, "" => BadJson
  | Outside, String c s' =>
      if is_ws c then lex Outside s'
      else if (c =? "{")%char then push TLBrace (lex Outside s')
      else if (c =? "}")%char then push TRBrace (lex Outside s')
      else if (c =? "[")%char then push TLBracket (lex Outside s')
      else if (c =? "]")%char then push TRBracket (lex Outside s')
      else if (c =? ":")%char then push TColon (lex Outside s')
      else if (c =? ",")%char then push TComma (lex Outside s')
      else if (c =? dquote)%char then lex (InString "") s'
      else if (c =? "n")%char then
        match s' with
        | String c1 (String c2 (String c3 r)) =>
            if ((c1 =? "u") && (c2 =? "l") && (c3 =? "l"))%char
            then push TNull (lex Outside r) else BadJson
        | _ => BadJson
        end
      else if (c =? "t")%char then
        match s' with
        | String c1 (String c2 (String c3 r)) =>
            if ((c1 =? "r") && (c2 =? "u") && (c3 =? "e"))%char
            then push TTrue (lex Outside r) else BadJson
        | _ => BadJson
        end
      else if (c =? "f")%char then
        match s' with
        | String c1 (String c2 (String c3 (String c4 r))) =>
            if ((c1 =? "a") && (c2 =? "l") && (c3 =? "s") && (c4 =? "e"))%char
            then push TFalse (lex Outside r) else BadJson
        | _ => BadJson
        end
      else if starts_number c then BeyondModel
      else BadJson
  | InString acc, String c s' =>
      if (c =? dquote)%char then push (TString acc) (lex Outside s')
      else if (c =? backslash)%char then
        match s' with
        | "" => BadJson
        | String e r =>
            if (e =? "u")%char then
              match r with
              | String h1 (String h2 (String h3 (String h4 r'))) =>
                  match unicode_escape h1 h2 h3 h4 with
                  | Some n =>
                      if (n <? 256)%N
                      then lex (InString (acc +:+ String (ascii_of_N n) "")) r'
                      else BeyondModel
                  | None => BadJson
                  end
              | _ => BadJson
              end
            else
              match simple_escape e with
              | Some ch => lex (InString (acc +:+ String ch "")) r
              | None => BadJson
              end
        end
      else if (N_of_ascii c <? 32)%N then BadJson
      else lex (InString (acc +:+ String c "")) s'
  end.

(** *** Parsing *)

Fixpoint parse_value (fuel : nat) (ts : list token) : option (json * list token) :=
  match fuel with
  | O => None
  | S fuel' =>
      match ts with
      | TNull :: r => Some (JNull, r)
      | TTrue :: r => Some (JBool true, r)
      | TFalse :: r => Some (JBool false, r)
      | TString s :: r => Some (JStr s, r)
      | TLBracket :: TRBracket :: r => Some (JArr [], r)
      | TLBracket :: r => parse_items fuel' r []
      | TLBrace :: TRBrace :: r => Some (JObj [], r)
      | TLBrace :: r => parse_members fuel' r []
      | _ => None
      end
  end
with parse_items (fuel : nat) (ts : list token) (acc : list json)
  : option (json * list token) :=
  match fuel with
  | O => None
  | S fuel' =>
      match parse_value fuel' ts with
      | Some (v, TComma :: r) => parse_items fuel' r (acc ++ [v])
      | Some (v, TRBracket :: r) => Some (JArr (acc ++ [v]), r)
      | _ => None
      end
  end
with parse_members (fuel : nat) (ts : list token) (acc : Dict.t json)
  : option (json * list token) :=
  match fuel with
  | O => None
  | S fuel' =>
      match ts with
      | TString k :: TColon :: r =>
          match parse_value fuel' r with
          | Some (v, TComma :: r') => parse_members fuel' r' (Dict.set k v acc)
          | Some (v, TRBrace :: r') => Some (JObj (Dict.set k v acc), r')
          | _ => None
          end
      | _ => None
      end
  end.

Inductive loaded :=
  | Value (v : json)
  | DecodeError
  | NotModelled.

(** [json.loads]: the whole text is one value. *)
Definition loads (text : string) : loaded :=
  match lex Outside text with
  | Tokens ts =>
      match parse_value (2 * length ts + 2) ts with
      | Some (v, []) => Value v
      | _ => DecodeError
      end
  | BadJson => DecodeError
  | BeyondModel => NotModelled
  end.

End Json.

(** ** Exceptions, effects and the world *)

Inductive exn :=
  | SystemExit (msg : string)
  | KeyError (key : string)
  | TypeError
  | IndexError
  | ValueError
  | FileNotFoundError (path : string)
  | JSONDecodeError
  | HTTPError (status_code : Z)       (* raised by [raise_for_status] *)
  | External (detail : string)        (* raised inside a collaborator *)
  | NotModelled (what : string).      (* the run leaves the modelled fragment *)

(** [SystemExit] derives from [BaseException] only; a run that leaves the
    model is not handled either. *)
Definition is_Exception (e : exn) : bool :=
  match e with
  | SystemExit _ | NotModelled _ => false
  | _ => true
  end.

(** The [AuthClient] object: what the constructor is given, and the tokens
    that [get_bearer_token] stores on it. *)
Record AuthClient := {
  client_id : string;
  client_secret : string;
  environment : string;
  redirect_uri : string;
  access_token : option string;
  refresh_token : option string
}.

Record request := { command : string; path : string }.

Record response := { status_code : Z; text : string }.

Inductive event :=
  | GetPassword (service name : string)             (* [keyring.get_password] *)
  | NewAuthClient (cid cs env uri : string)         (* [AuthClient(...)] *)
  | OpenBrowser (url : string)                      (* [webbrowser.open] *)
  | SendResponse (code : Z)                         (* [send_response] *)
  | EndHeaders                                      (* [end_headers] *)
  | WfileWrite (data : string)                      (* [wfile.write] *)
  | GetBearerToken (code realm_id : option string)  (* call of the token endpoint *)
  | HttpGet (url authorization : string)            (* [requests.get] *)
  | HttpReply (status : Z)                          (* the answer to it *)
  | FileWrite (path : string)                       (* a file opened with mode [w] *)
  | Printed (line : string)                           (* [print] *)
  | HandleError (e : exn).                          (* the server logs a handler's exception *)

Record world := {
  environ : gmap string string;           (* [os.environ] *)
  keyring : gmap (string * string) string;  (* OS keychain: (service, name) to password *)
  files : gmap string string;             (* files of the working directory *)
  auth_client : option AuthClient;        (* the module global [auth_client] *)
  inbox : list request                    (* requests arriving at localhost:8000, in order *)
}.

(** What lies outside the process: the URL library, the identity provider
    behind [AuthClient], and the accounting API behind [requests.get]. *)
Class Externals := {
  (** the exception, if any, that [urlparse] or [parse_qs] raises on a
      request target ([ValueError] on a malformed one) *)
  query_error : string → option exn;
  (** the pairs [parse_qs] finds in [urlparse(path).query] *)
  query_pairs : string → list (string * string);
  (** the [AuthClient] constructor, which fetches the discovery document
      of the environment: the exception it raises, if any *)
  auth_client_init : string → string → string → string → option exn;
  (** the page that [send_error] writes for a request it cannot serve *)
  error_page : request → string;
  (** [AuthClient.get_authorization_url] *)
  authorization_url : AuthClient → string;
  (** the token endpoint: an exception, or the access and refresh tokens *)
  token_endpoint :
    AuthClient → option string → option string → exn + (option string * option string);
  (** [requests.get(url, headers=..., timeout=30)]: given the URL and the
      [Authorization] header, an exception or the response *)
  requests_get : string → string → exn + response
}.

(** *** The monad of effects *)

Inductive result (A : Type) :=
  | Ok (a : A)
  | Raise (e : exn)
  | Hang.            (* blocks for ever *)
Arguments Ok {A} a.
Arguments Raise {A} e.
Arguments Hang {A}.

Record run (A : Type) := Run {
  outcome : result A;
  final : world;
  events : list event     (* effects of the run, oldest first *)
}.
Arguments Run {A} _ _ _.
Arguments outcome {A} _.
Arguments final {A} _.
Arguments events {A} _.

Definition M (A : Type) : Type := world → run A.

Definition ret {A} (a : A) : M A := fun w => Run (Ok a) w [].

Definition raise {A} (e : exn) : M A := fun w => Run (Raise e) w [].

Definition bind {A B} (m : M A) (k : A → M B) : M B :=
  fun w =>
    let r := m w in
    match outcome r with
    | Ok a =>
        let r' := k a (final r) in
        Run (outcome r') (final r') (events r ++ events r')
    | Raise e => Run (Raise e) (final r) (events r)
    | Hang => Run Hang (final r) (events r)
    end.

Notation "'let*' x ':=' m 'in' k" := (bind m (fun x => k))
  (at level 10, x name, m at level 100, k at level 200).
Notation "m ';;' k" := (bind m (fun _ => k))
  (at level 100, k at level 200, right associativity).

Definition emit (e : event) : M unit := fun w => Run (Ok tt) w [e].

Definition get_world : M world := fun w => Run (Ok w) w [].

Definition set_auth_client (ac : AuthClient) : M unit :=
  fun w =>
    Run (Ok tt)
      {| environ := environ w; keyring := keyring w; files := files w;
         auth_client := Some ac; inbox := inbox w |} [].

Definition set_file (name content : string) : M unit :=
  fun w =>
    Run (Ok tt)
      {| environ := environ w; keyring := keyring w;
         files := <[name := content]> (files w);
         auth_client := auth_client w; inbox := inbox w |} [FileWrite name].

Definition set_inbox (rs : list request) : M unit :=
  fun w =>
    Run (Ok tt)
      {| environ := environ w; keyring := keyring w; files := files w;
         auth_client := auth_client w; inbox := rs |} [].

(** *** Library calls *)

(** [os.getenv(name)] *)
Definition getenv (name : string) : M (option string) :=
  let* w := get_world in ret (environ w !! name).

(** [keyring.get_password(service, name)] *)
Definition get_password (service name : string) : M (option string) :=
  emit (GetPassword service name);;
  let* w := get_world in ret (keyring w !! (service, name)).

(** Truth value of a [str | None]. *)
Definition truthy (v : option string) : bool :=
  match v with
  | Some s => negb (String.eqb s "")
  | None => false
  end.

Definition upper_char (c : ascii) : ascii :=
  let n := N_of_ascii c in
  if ((97 <=? n) && (n <=? 122))%N then ascii_of_N (n - 32) else c.

(** [str.upper], for names written in ASCII. *)
Fixpoint upper (s : string) : string :=
  match s with
  | "" => ""
  | String c s' => String (upper_char c) (upper s')
  end.

(** [with open(name, "w") as f: json.dump(v, f, indent=2)] *)
Definition json_dump_file (v : json) (name : string) : M unit :=
  set_file name (Json.dumps v).

Definition json_loads (text : string) : M json :=
  match Json.loads text with
  | Json.Value v => ret v
  | Json.DecodeError => raise JSONDecodeError
  | Json.NotModelled => raise (NotModelled "json")
  end.

(** [with open(name) as f: t = json.load(f)] *)
Definition json_load_file (name : string) : M json :=
  let* w := get_world in
  match files w !! name with
  | None => raise (FileNotFoundError name)
  | Some content => json_loads content
  end.

(** [t[key]] on a loaded JSON value *)
Definition subscript (t : json) (key : string) : M json :=
  match t with
  | JObj members =>
      match Dict.get key members with
      | Some v => ret v
      | None => raise (KeyError key)
      end
  | JArr _ | JStr _ => raise TypeError
  | JNull | JBool _ => raise TypeError
  end.

(** A value as an f-string shows it. *)
Definition format (v : json) : M string :=
  match v with
  | JStr s => ret s
  | JNull => ret "None"
  | JBool true => ret "True"
  | JBool false => ret "False"
  | JArr _ | JObj _ => raise (NotModelled "repr of a list or dict")
  end.

(** [l[0]] *)
Definition first {A} (l : list A) : M A :=
  match l with
  | x :: _ => ret x
  | [] => raise IndexError
  end.

(** [parse_qs]: the values of each name, in order of appearance. *)
Definition parse_qs (pairs : list (string * string)) : Dict.t (list string) :=
  fold_left
    (fun d nv =>
       match Dict.get nv.1 d with
       | Some vs => Dict.set nv.1 (vs ++ [nv.2]) d
       | None => Dict.set nv.1 [nv.2] d
       end)
    pairs Dict.empty.

(** [qs.get(name, [None])] *)
Definition qs_get (name : string) (qs : Dict.t (list string)) : list (option string) :=
  match Dict.get name qs with
  | Some vs => map Some vs
  | None => [None]
  end.

(** [Response.raise_for_status] of the requests library: an [HTTPError]
    for a status from 400 to 599. *)
Definition raise_for_status (r : response) : M unit :=
  if ((400 <=? status_code r) && (status_code r <? 600))%Z
  then raise (HTTPError (status_code r))
  else ret tt.

Definition http_get `{Externals} (url authorization : string) : M response :=
  emit (HttpGet url authorization);;
  match requests_get url authorization with
  | inl e => raise e
  | inr r => emit (HttpReply (status_code r));; ret r
  end.

(** ** The script *)

Definition SERVICE : string := "qbo_receipt_processor".

Definition _get_secret (name : string) : M (option string) :=
  let* v := getenv ("QBO_" +:+ upper name) in
  if truthy v then ret v else get_password SERVICE name.

(** [os.getenv("QBO_REDIRECT_URI", "http://localhost:8000/callback")] *)
Definition REDIRECT_URI (w : world) : string :=
  default "http://localhost:8000/callback" (environ w !! "QBO_REDIRECT_URI").

(** [os.getenv("QBO_ENV", "production")] *)
Definition ENV (w : world) : string :=
  default "production" (environ w !! "QBO_ENV").

Definition missing_keys_message : string :=
  "Missing CLIENT_ID/CLIENT_SECRET." +:+ String Json.newline
  ("Run:  python qbo_min.py setkeys   (stores them in your OS keychain)"
   +:+ String Json.newline
  "Or set env vars QBO_CLIENT_ID / QBO_CLIENT_SECRET.").

Definition get_auth_client `{Externals} : M AuthClient :=
  let* w := get_world in
  match auth_client w with
  | Some ac => ret ac
  | None =>
      let* cid := _get_secret "client_id" in
      let* cs := _get_secret "client_secret" in
      if negb (truthy cid) || negb (truthy cs) then
        raise (SystemExit missing_keys_message)
      else
        let ac := {| client_id := default "" cid;
                     client_secret := default "" cs;
                     environment := ENV w;
                     redirect_uri := REDIRECT_URI w;
                     access_token := None;
                     refresh_token := None |} in
        emit (NewAuthClient (client_id ac) (client_secret ac)
                (environment ac) (redirect_uri ac));;
        match auth_client_init (client_id ac) (client_secret ac)
                (environment ac) (redirect_uri ac) with
        | Some e => raise e
        | None => set_auth_client ac;; ret ac
        end
  end.

(** [ac.get_bearer_token(code, realm_id=realm_id)]: on success the tokens
    are stored on the client object, which is the module global. *)
Definition get_bearer_token `{Externals} (ac : AuthClient)
    (code realm_id : option string) : M unit :=
  emit (GetBearerToken code realm_id);;
  match token_endpoint ac code realm_id with
  | inl e => raise e
  | inr (access, refresh) =>
      set_auth_client
        {| client_id := client_id ac; client_secret := client_secret ac;
           environment := environment ac; redirect_uri := redirect_uri ac;
           access_token := access; refresh_token := refresh |}
  end.

(** [json] value of a [str | None] *)
Definition json_of (v : option string) : json :=
  match v with
  | Some s => JStr s
  | None => JNull
  end.

(** The dictionary that [do_GET] dumps. *)
Definition token_record (access refresh realm_id : option string) : json :=
  JObj [("access_token", json_of access);
        ("refresh_token", json_of refresh);
        ("realm_id", json_of realm_id)].

Definition ok_body : string := "OK, you can close this tab.".

(** [CB.do_GET], [self.path] being [path] *)
Definition do_GET `{Externals} (path : string) : M unit :=
  let* qs := match query_error path with
             | Some e => raise e
             | None => ret (parse_qs (query_pairs path))
             end in
  let* code := first (qs_get "code" qs) in
  let* realm_id := first (qs_get "realmId" qs) in
  emit (SendResponse 200);; emit EndHeaders;;
  emit (WfileWrite ok_body);;
  let* ac := get_auth_client in
  get_bearer_token ac code realm_id;;
  let* w := get_world in
  match auth_client w with
  | None => raise (NotModelled "auth_client")
  | Some ac =>
      json_dump_file
        (token_record (access_token ac) (refresh_token ac) realm_id)
        "tokens.json"
  end.

(** What [BaseHTTPRequestHandler] does with one request: a [GET] goes to
    [do_GET]; for any other command [send_error] answers with status 501
    and, unless the command is [HEAD], a page that says so.  The header
    lines of a response are part of its head and are no events of their
    own. *)
Definition handle_one_request `{Externals} (req : request) : M unit :=
  if String.eqb (command req) "GET" then do_GET (path req)
  else
    emit (SendResponse 501);; emit EndHeaders;;
    if String.eqb (command req) "HEAD" then ret tt
    else emit (WfileWrite (error_page req)).

(** [HTTPServer(...).handle_request()]: waits for one request, hands it to
    the handler, logs an [Exception] raised there, and returns. *)
Definition handle_request `{Externals} : M unit :=
  fun w =>
    match inbox w with
    | [] => Run Hang w []
    | req :: rest =>
        let r := (set_inbox rest;; handle_one_request req) w in
        match outcome r with
        | Raise e =>
            if is_Exception e
            then Run (Ok tt) (final r) (events r ++ [HandleError e])
            else r
        | _ => r
        end
    end.

Definition login `{Externals} : M unit :=
  let* ac := get_auth_client in
  let url := authorization_url ac in
  emit (OpenBrowser url);;
  handle_request.

Definition company_info_raw `{Externals} : M unit :=
  let* t := json_load_file "tokens.json" in
  let* w := get_world in
  let base := if String.eqb (ENV w) "sandbox"
              then "https://sandbox-quickbooks.api.intuit.com"
              else "https://quickbooks.api.intuit.com" in
  let* realm := subscript t "realm_id" in
  let* realm := format realm in
  let url := base +:+ "/v3/company/" +:+ realm +:+ "/companyinfo/" +:+ realm
                  +:+ "?minorversion=75" in
  let* access := subscript t "access_token" in
  let* access := format access in
  let* r := http_get url ("Bearer " +:+ access) in
  raise_for_status r;;
  let* body := json_loads (text r) in
  emit (Printed (Json.dumps body));;
  emit (Printed ("DEBUG URL: " +:+ url)).

Definition get_transactions `{Externals} (t_start_date t_end_date : string) : M json :=
  let* t := json_load_file "tokens.json" in
  let* w := get_world in
  let base := if String.eqb (ENV w) "sandbox"
              then "https://sandbox-quickbooks.api.intuit.com"
              else "https://quickbooks.api.intuit.com" in
  let* realm := subscript t "realm_id" in
  let* realm := format realm in
  let url := base +:+ "/v3/company/" +:+ realm
                  +:+ "/reports/TransactionList?start_date=" +:+ t_start_date
                  +:+ "&end_date=" +:+ t_end_date +:+ "&minorversion=75" in
  let* access := subscript t "access_token" in
  let* access := format access in
  let* r := http_get url ("Bearer " +:+ access) in
  raise_for_status r;;
  let* data := json_loads (text r) in
  ret data.

(** ** Statements used by the claims *)

(** The environment variable that [_get_secret] reads for a name. *)
Definition env_key (name : string) : string := "QBO_" +:+ upper name.

(** Whether a text occurs in another. *)
Definition occurs_in (needle hay : string) : bool :=
  bool_decide (is_Some (String.index 0 needle hay)).

(** The credential store as worded: an environment variable that is set
    wins over the vault, which is then not consulted. *)
Definition env_always_wins : Prop :=
  ∀ (name : string) (w : world) (v : string),
    environ w !! env_key name = Some v →
    outcome (_get_secret name w) = Ok (Some v) ∧ events (_get_secret name w) = [].

(** A world whose environment sets [QBO_CLIENT_ID] to the empty string. *)
Definition empty_env_world : world :=
  {| environ := {["QBO_CLIENT_ID" := ""]};
     keyring := {[(SERVICE, "client_id") := "from-vault"]};
     files := ∅; auth_client := None; inbox := [] |}.

(** The auth client as worded: an absent secret is a configuration error,
    and two secrets that are present give a client (the constructor being
    one that does not fail). *)
Definition present_secrets_give_client : Prop :=
  ∀ (E : Externals) (w : world) (cid cs : option string),
    (∀ id secret env uri, auth_client_init id secret env uri = None) →
    auth_client w = None →
    outcome (_get_secret "client_id" w) = Ok cid →
    outcome (_get_secret "client_secret" w) = Ok cs →
    (cid = None ∨ cs = None →
       outcome (get_auth_client w) = Raise (SystemExit missing_keys_message)) ∧
    (is_Some cid ∧ is_Some cs →
       ∃ ac, outcome (get_auth_client w) = Ok ac).

(** A world whose vault holds an empty client id. *)
Definition empty_vault_world : world :=
  {| environ := ∅;
     keyring := {[(SERVICE, "client_id") := ""; (SERVICE, "client_secret") := "s3cret"]};
     files := ∅; auth_client := None; inbox := [] |}.

Definition is_keyring_event (e : event) : bool :=
  match e with GetPassword _ _ => true | _ => false end.

(** A value that [get_auth_client] takes for missing: [None] or [""]. *)
Definition missing (v : option string) : Prop := v = None ∨ v = Some "".

(** The client built from an identifier and a secret in a world. *)
Definition new_client (w : world) (cid cs : string) : AuthClient :=
  {| client_id := cid; client_secret := cs;
     environment := ENV w; redirect_uri := REDIRECT_URI w;
     access_token := None; refresh_token := None |}.

(** A world with both secrets: one in the environment, one in the vault. *)
Definition configured_world : world :=
  {| environ := {["QBO_CLIENT_ID" := "abc"]};
     keyring := {[(SERVICE, "client_secret") := "s3cret"]};
     files := ∅; auth_client := None; inbox := [] |}.

(** The token that the text of a [str | None] scans to. *)
Definition token_of (v : option string) : Json.token :=
  match v with
  | Some s => Json.TString s
  | None => Json.TNull
  end.

(** The first value that the query of a request gives to a name. *)
Definition query_value (name : string) (pairs : list (string * string)) : option string :=
  match Dict.get name (parse_qs pairs) with
  | Some (v :: _) => Some v
  | _ => None
  end.

(** What the browser receives for a callback. *)
Definition ok_response : list event :=
  [SendResponse 200; EndHeaders; WfileWrite ok_body].

(** The client object once the tokens are stored on it. *)
Definition with_tokens (ac : AuthClient) (access refresh : option string) : AuthClient :=
  {| client_id := client_id ac; client_secret := client_secret ac;
     environment := environment ac; redirect_uri := redirect_uri ac;
     access_token := access; refresh_token := refresh |}.

(** The world after a successful exchange: the tokens are on the global
    client and in [tokens.json]. *)
Definition world_with_tokens (w : world) (ac : AuthClient)
    (access refresh realm_id : option string) : world :=
  {| environ := environ w; keyring := keyring w;
     files := <["tokens.json" := Json.dumps (token_record access refresh realm_id)]> (files w);
     auth_client := Some (with_tokens ac access refresh);
     inbox := inbox w |}.

(** Events that reach the browser. *)
Definition is_browser_event (e : event) : bool :=
  match e with
  | SendResponse _ | EndHeaders | WfileWrite _ => true
  | _ => false
  end.

(** Calls of the token endpoint. *)
Definition is_exchange (e : event) : bool :=
  match e with GetBearerToken _ _ => true | _ => false end.

(** Events of [get_auth_client]: vault lookups and the constructor. *)
Definition is_config_event (e : event) : bool :=
  match e with GetPassword _ _ | NewAuthClient _ _ _ _ => true | _ => false end.

Definition exchanges (evs : list event) : nat :=
  length (List.filter is_exchange evs).

Definition browser_output (evs : list event) : list event :=
  List.filter is_browser_event evs.

(** The world with other requests waiting. *)
Definition with_inbox (w : world) (rs : list request) : world :=
  {| environ := environ w; keyring := keyring w; files := files w;
     auth_client := auth_client w; inbox := rs |}.

(** Collaborators for examples: an identity provider that hands out tokens,
    and one that refuses the code; the API answers with a fixed response. *)
Definition sample_externals (idp_ok : bool) (reply : response) : Externals :=
  {| query_error := fun _ => None;
     query_pairs := fun _ => [("code", "C0DE"); ("realmId", "4620")];
     auth_client_init := fun _ _ _ _ => None;
     error_page := fun _ => "Error response";
     authorization_url := fun ac =>
       "https://appcenter.intuit.com/connect/oauth2?client_id=" +:+ client_id ac;
     token_endpoint := fun _ _ _ =>
       if idp_ok then inr (Some "AT", Some "RT") else inl (External "invalid_grant");
     requests_get := fun _ _ => inr reply |}.

Definition callback : request :=
  {| command := "GET"; path := "/callback?code=C0DE&realmId=4620" |}.

(** A configured world with two requests on their way to the listener. *)
Definition login_world : world :=
  with_inbox configured_world [callback; callback].

(** *** Statements about the report client *)

(** The host of the API for an environment. *)
Definition api_host (env : string) : string :=
  if String.eqb env "sandbox"
  then "https://sandbox-quickbooks.api.intuit.com"
  else "https://quickbooks.api.intuit.com".

(** A [str | None] as an f-string shows it. *)
Definition shown (v : option string) : string :=
  match v with
  | Some s => s
  | None => "None"
  end.

Definition company_info_url (env realm : string) : string :=
  api_host env +:+ "/v3/company/" +:+ realm +:+ "/companyinfo/" +:+ realm
    +:+ "?minorversion=75".

Definition transactions_url (env realm t_start_date t_end_date : string) : string :=
  api_host env +:+ "/v3/company/" +:+ realm
    +:+ "/reports/TransactionList?start_date=" +:+ t_start_date
    +:+ "&end_date=" +:+ t_end_date +:+ "&minorversion=75".

(** The three steps both operations take with the API: the request, the
    check of the status, the decoding of the body. *)
Definition fetch_json `{Externals} (url authorization : string) : M json :=
  let* r := http_get url authorization in
  raise_for_status r;;
  json_loads (text r).

Definition is_print (e : event) : bool :=
  match e with Printed _ => true | _ => false end.

Definition is_http_get (e : event) : bool :=
  match e with HttpGet _ _ => true | _ => false end.

(** The URLs requested in a run. *)
Definition requested (evs : list event) : list string :=
  omap (λ e, match e with HttpGet url _ => Some url | _ => None end) evs.

(** A step that has no effect: it returns or raises in the world it got. *)
Definition quiet {A} (m : M A) : Prop :=
  ∀ w, (∃ a, m w = Run (Ok a) w []) ∨ (∃ e, m w = Run (Raise e) w []).

(** Company info as worded: any answer outside 200 to 299 makes the
    operation raise, and nothing is printed. *)
Definition fails_on_every_non_2xx : Prop :=
  ∀ (E : Externals) (w : world) (s : Z),
    HttpReply s ∈ events (company_info_raw w) →
    ¬ (200 ≤ s < 300)%Z →
    (∃ e, outcome (company_info_raw w) = Raise e) ∧
    Forall (λ e, is_print e = false) (events (company_info_raw w)).

(** A world after a login: the token file holds a record. *)
Definition tokens_world : world :=
  {| environ := {["QBO_ENV" := "sandbox"]};
     keyring := ∅;
     files := {["tokens.json" :=
                  Json.dumps (token_record (Some "AT") (Some "RT") (Some "4620"))]};
     auth_client := None; inbox := [] |}.

(** Collaborators that all answer: tokens are handed out and the API
    answers 200 with an empty object. *)
Definition ok_externals : Externals :=
  sample_externals true {| status_code := 200; text := "{}" |}.

(** Collaborators whose URL library refuses a request target that opens a
    bracket without closing it, as [urlparse] does with [ValueError]. *)
Definition strict_url_externals : Externals :=
  {| query_error := fun target =>
       if occurs_in "[" target && negb (occurs_in "]" target)
       then Some ValueError else None;
     query_pairs := fun _ => [("code", "C0DE"); ("realmId", "4620")];
     auth_client_init := fun _ _ _ _ => None;
     error_page := fun _ => "Error response";
     authorization_url := fun _ => "https://appcenter.intuit.com/connect/oauth2";
     token_endpoint := fun _ _ _ => inr (Some "AT", Some "RT");
     requests_get := fun _ _ => inr {| status_code := 200; text := "{}" |} |}.

(** Collaborators when the identity provider cannot be reached: the
    constructor of [AuthClient] fails to fetch the discovery document. *)
Definition offline_externals : Externals :=
  {| query_error := fun _ => None;
     query_pairs := fun _ => [("code", "C0DE"); ("realmId", "4620")];
     auth_client_init := fun _ _ _ _ => Some (External "ConnectionError");
     error_page := fun _ => "Error response";
     authorization_url := fun _ => "https://appcenter.intuit.com/connect/oauth2";
     token_endpoint := fun _ _ _ => inl (External "ConnectionError");
     requests_get := fun _ _ => inl (External "ConnectionError") |}.

(** ** The rest of the script: [setkeys], [company_info_sdk], the command line *)

(** [str.isspace] on a code point below 256. *)
Definition is_space (c : ascii) : bool :=
  let n := N_of_ascii c in
  (((9 <=? n) && (n <=? 13)) || ((28 <=? n) && (n <=? 32))
   || (n =? 133) || (n =? 160))%N.

Fixpoint lstrip (s : string) : string :=
  match s with
  | "" => ""
  | String c s' => if is_space c then lstrip s' else s
  end.

Fixpoint rstrip (s : string) : string :=
  match s with
  | "" => ""
  | String c s' =>
      match rstrip s' with
      | "" => if is_space c then "" else String c ""
      | r => String c r
      end
  end.

(** [str.strip()] *)
Definition strip (s : string) : string := rstrip (lstrip s).

Definition lower_char (c : ascii) : ascii :=
  let n := N_of_ascii c in
  if ((65 <=? n) && (n <=? 90))%N then ascii_of_N (n + 32) else c.

(** [str.lower], for commands written in ASCII. *)
Fixpoint lower (s : string) : string :=
  match s with
  | "" => ""
  | String c s' => String (lower_char c) (lower s')
  end.

(** [keyring.set_password(service, name, password)] *)
Definition set_password (service name password : string) : M unit :=
  fun w =>
    Run (Ok tt)
      {| environ := environ w;
         keyring := <[(service, name) := password]> (keyring w);
         files := files w; auth_client := auth_client w; inbox := inbox w |} [].

(** [setkeys], [typed_id] and [typed_secret] being what [input] and
    [getpass.getpass] return.  The two prompts are not recorded. *)
Definition setkeys (typed_id typed_secret : string) : M unit :=
  let cid := strip typed_id in
  let cs := strip typed_secret in
  set_password SERVICE "client_id" cid;;
  set_password SERVICE "client_secret" cs;;
  emit (Printed ("Saved to OS keychain under service: " +:+ SERVICE)).

(** The python-quickbooks library: building the [QuickBooks] client from
    the auth client, the refresh token and the company id, and running a
    query on it; an exception of either, or the rows found. *)
Class Sdk := {
  quickbooks_query : AuthClient → json → json → string → exn + json
}.

Definition company_info_sdk `{Externals} `{Sdk} : M unit :=
  let* t := json_load_file "tokens.json" in
  let* ac := get_auth_client in
  let* refresh := subscript t "refresh_token" in
  let* company := subscript t "realm_id" in
  match quickbooks_query ac refresh company "select Id, Name from Account maxresults 5" with
  | inl e => raise e
  | inr resp => emit (Printed (Json.dumps resp))
  end.

Definition usage : string := "Usage: python qbo_min.py [login|whoami|query]".

(** How a command ends: as a run of the monad, or with the
    [AttributeError] of calling [.get] on a [str]. *)
Inductive cli_run :=
  | Finished (r : run unit)
  | AttributeError.

(** [sys.argv[i]] *)
Definition argv_at (argv : list string) (i : nat) : M string :=
  match argv !! i with
  | Some a => ret a
  | None => raise IndexError
  end.

(** The block under [if __name__ == "__main__"], [argv] being [sys.argv];
    [typed_id] and [typed_secret] are what the operator types when
    [setkeys] asks. *)
Definition main `{Externals} `{Sdk} (argv : list string)
    (typed_id typed_secret : string) (w : world) : cli_run :=
  let cmd := lower (if (1 <? length argv)%nat then default "login" (argv !! 1%nat)
                    else "login") in
  if String.eqb cmd "login" then Finished (login w)
  else if String.eqb cmd "whoami" then Finished (company_info_raw w)
  else if String.eqb cmd "query" then Finished (company_info_sdk w)
  else if String.eqb cmd "setkeys" then Finished (setkeys typed_id typed_secret w)
  else if String.eqb cmd "tx" then
    Finished ((let* t_start_date := argv_at argv 2 in
               let* t_end_date := argv_at argv 3 in
               get_transactions t_start_date t_end_date;; ret tt) w)
  else if String.eqb cmd "parse" then
    match argv !! 2%nat with
    | Some _ => AttributeError
    | None => Finished (raise IndexError w)
    end
  else Finished (emit (Printed usage) w).

(** *** Statements about the flattener *)

(** The value of the last pair with key [k]. *)
Fixpoint assoc_last {V} (k : string) (l : list (string * V)) : option V :=
  match l with
  | [] => None
  | (k', v) :: l' =>
      match assoc_last k l' with
      | Some x => Some x
      | None => if decide (k' = k) then Some v else None
      end
  end.

(** The rows of a report that are flattened. *)
Definition data_rows (report_json : report) : list row :=
  List.filter is_data_row (report_rows report_json).

(** *** Statements about the callback *)

(** The values that a query gives to a name, in order. *)
Definition query_values (name : string) (pairs : list (string * string)) : list string :=
  map snd (List.filter (λ nv, bool_decide (nv.1 = name)) pairs).

(** Collaborators for a callback whose query names nothing. *)
Definition bare_query_externals : Externals :=
  {| query_error := fun _ => None;
     query_pairs := fun _ => [];
     auth_client_init := fun _ _ _ _ => None;
     error_page := fun _ => "Error response";
     authorization_url := fun _ => "https://appcenter.intuit.com/connect/oauth2";
     token_endpoint := fun _ _ _ => inl (External "invalid_grant");
     requests_get := fun _ _ => inl (External "unreachable") |}.

(** A configured world where a [POST] arrives first. *)
Definition post_world : world :=
  with_inbox configured_world [{| command := "POST"; path := "/callback" |}; callback].

(** A world whose token file is an empty JSON object. *)
Definition empty_record_world : world :=
  {| environ := ∅; keyring := ∅; files := {["tokens.json" := "{}"]};
     auth_client := None; inbox := [] |}.

(** Collaborators whose API cannot be reached. *)
Definition unreachable_api : Externals :=
  {| query_error := fun _ => None;
     query_pairs := fun _ => [];
     auth_client_init := fun _ _ _ _ => None;
     error_page := fun _ => "Error response";
     authorization_url := fun _ => "https://appcenter.intuit.com/connect/oauth2";
     token_endpoint := fun _ _ _ => inr (Some "AT", Some "RT");
     requests_get := fun _ _ => inl (External "ConnectionError") |}.

(** The query that [company_info_sdk] runs. *)
Definition account_query : string := "select Id, Name from Account maxresults 5".

(** An SDK that finds no rows. *)
Definition empty_sdk : Sdk := {| quickbooks_query := fun _ _ _ _ => inr (JArr []) |}.

(** A configured world after a login. *)
Definition ready_world : world :=
  {| environ := environ configured_world; keyring := keyring configured_world;
     files := files tokens_world; auth_client := None; inbox := [] |}.

(** The commands that the command line knows. *)
Definition known_commands : list string :=
  ["login"; "whoami"; "query"; "setkeys"; "tx"; "parse"].

(** * Properties *)

(** ** Facts about dictionaries *)

Section DictFacts.
Context {V : Type}.
Implicit Types (d : Dict.t V) (k : string) (v : V).

Lemma keys_set k v d :
  Dict.keys (Dict.set k v d) =
  if decide (k ∈ Dict.keys d) then Dict.keys d else Dict.keys d ++ [k].
Proof.
  unfold Dict.keys. induction d as [|[k' v'] d IH]; [done |].
  cbn [Dict.set]. destruct (decide (k' = k)) as [->|Hne].
  - rewrite decide_True by (rewrite fmap_cons; apply list_elem_of_here). done.
  - rewrite !fmap_cons, IH. cbn [fst].
    destruct (decide (k ∈ d.*1)) as [Hin|Hnin].
    + rewrite decide_True by (by apply list_elem_of_further). done.
    + rewrite decide_False; [done |].
      intros [?|?]%elem_of_cons; [congruence | done].
Qed.

Lemma keys_set_NoDup k v d : NoDup (Dict.keys d) → NoDup (Dict.keys (Dict.set k v d)).
Proof.
  intros Hd. rewrite keys_set. case_decide; [done |].
  apply NoDup_app. split_and!; [done | | apply NoDup_singleton].
  intros x Hx ->%list_elem_of_singleton. done.
Qed.

Lemma elem_of_keys_set k k0 v d :
  k0 ∈ Dict.keys (Dict.set k v d) ↔ k0 ∈ Dict.keys d ∨ k0 = k.
Proof.
  rewrite keys_set. case_decide as Hk.
  - split; [by left | intros [?| ->]; done].
  - rewrite elem_of_app, list_elem_of_singleton. done.
Qed.

Lemma update_nil d : Dict.update d [] = d.
Proof. reflexivity. Qed.

Lemma update_cons d k v (l : list (string * V)) :
  Dict.update d ((k, v) :: l) = Dict.update (Dict.set k v d) l.
Proof. reflexivity. Qed.

Lemma keys_update_NoDup d (l : list (string * V)) :
  NoDup (Dict.keys d) → NoDup (Dict.keys (Dict.update d l)).
Proof.
  revert d. induction l as [|[k v] l IH]; intros d Hd; [done |].
  rewrite update_cons. apply IH. by apply keys_set_NoDup.
Qed.

Lemma elem_of_keys_update k0 d (l : list (string * V)) :
  k0 ∈ Dict.keys (Dict.update d l) ↔ k0 ∈ Dict.keys d ∨ k0 ∈ l.*1.
Proof.
  revert d. induction l as [|[k v] l IH]; intros d.
  - rewrite update_nil, fmap_nil, elem_of_nil. tauto.
  - rewrite update_cons, IH, elem_of_keys_set, fmap_cons, elem_of_cons.
    cbn [fst]. tauto.
Qed.

(** The keys added by an update are a subsequence of the keys offered. *)
Lemma keys_update_sublist d (l : list (string * V)) :
  ∃ l', Dict.keys (Dict.update d l) = Dict.keys d ++ l' ∧ sublist l' l.*1.
Proof.
  revert d. induction l as [|[k v] l IH]; intros d.
  - exists []. by rewrite app_nil_r.
  - destruct (IH (Dict.set k v d)) as (l' & Heq & Hsub).
    rewrite update_cons, Heq, keys_set, fmap_cons. cbn [fst]. case_decide.
    + exists l'. split; [done | by apply sublist_cons].
    + exists (k :: l'). rewrite <- app_assoc. split; [done | by apply sublist_skip].
Qed.

(** Fresh, distinct keys are appended in the order offered. *)
Lemma keys_update_fresh d (l : list (string * V)) :
  NoDup (Dict.keys d ++ l.*1) →
  Dict.keys (Dict.update d l) = Dict.keys d ++ l.*1.
Proof.
  revert d. induction l as [|[k v] l IH]; intros d Hnd.
  - by rewrite fmap_nil, app_nil_r.
  - rewrite fmap_cons in Hnd. cbn [fst] in Hnd.
    assert (k ∉ Dict.keys d) as Hk.
    { apply NoDup_app in Hnd as (_ & Hdisj & _). intros Hin.
      apply (Hdisj k Hin). apply list_elem_of_here. }
    rewrite update_cons, IH; rewrite keys_set, decide_False by done.
    + by rewrite <- app_assoc.
    + by rewrite <- app_assoc.
Qed.

End DictFacts.

(** ** The flattener, row by row *)

Lemma zip_fst_take {A B} (l : list A) (k : list B) :
  (zip l k).*1 = take (length k) l.
Proof.
  revert k. induction l as [|a l IH]; intros [|b k]; try done.
  cbn [zip zip_with length take]. rewrite fmap_cons, IH. done.
Qed.

Lemma flatten_loop (cols : list string) (rs : list row) (acc : list (Dict.t (option string))) :
  fold_left
    (fun out row =>
       if is_data_row row then out ++ [Dict.of_pairs (zip cols (row_values row))]
       else out) rs acc
  = acc ++ map (flatten_row cols) (List.filter is_data_row rs).
Proof.
  revert acc. induction rs as [|r rs IH]; intros acc; cbn [fold_left List.filter].
  - by rewrite app_nil_r.
  - rewrite IH. destruct (is_data_row r); [|done].
    cbn [map]. by rewrite <- app_assoc.
Qed.

(** The loop of [parse_transaction_list] maps the data rows, in order. *)
Lemma parse_transaction_list_eq (rj : report) :
  parse_transaction_list rj =
  map (flatten_row (column_titles rj)) (List.filter is_data_row (report_rows rj)).
Proof. unfold parse_transaction_list. by rewrite flatten_loop. Qed.

Lemma keys_flatten_row_NoDup cols r : NoDup (Dict.keys (flatten_row cols r)).
Proof. apply keys_update_NoDup. constructor. Qed.

Lemma keys_flatten_row_sublist cols r : sublist (Dict.keys (flatten_row cols r)) cols.
Proof.
  destruct (keys_update_sublist Dict.empty (zip cols (row_values r))) as (l' & Heq & Hsub).
  unfold flatten_row, Dict.of_pairs. rewrite Heq. cbn [Dict.keys Dict.empty fmap list_fmap app].
  rewrite zip_fst_take in Hsub. etrans; [done | apply sublist_take].
Qed.

Lemma elem_of_keys_flatten_row cols r k :
  k ∈ Dict.keys (flatten_row cols r) ↔ k ∈ take (length (row_values r)) cols.
Proof.
  unfold flatten_row, Dict.of_pairs. rewrite elem_of_keys_update, zip_fst_take.
  unfold Dict.keys, Dict.empty. rewrite fmap_nil, elem_of_nil. tauto.
Qed.

Lemma keys_flatten_row_full cols r :
  (length cols ≤ length (row_values r))%nat → NoDup cols →
  Dict.keys (flatten_row cols r) = cols.
Proof.
  intros Hlen Hnd. unfold flatten_row, Dict.of_pairs.
  rewrite keys_update_fresh; rewrite zip_fst_take, take_ge by done; done.
Qed.

Lemma flatten_row_record cols r : record_of_row cols r (flatten_row cols r).
Proof.
  split_and!.
  - apply keys_flatten_row_NoDup.
  - apply keys_flatten_row_sublist.
  - apply elem_of_keys_flatten_row.
  - intros Hlen k. by rewrite elem_of_keys_flatten_row, take_ge.
  - apply keys_flatten_row_full.
Qed.

Example parse_short_row_report :
  parse_transaction_list short_row_report = [[("Date", Some "2024-01-01")]].
Proof. reflexivity. Qed.

Example parse_scenario :
  parse_transaction_list
    (mk_report ["Date"; "Amount"] [mk_row "Data" ["2024-01-01"; "100.00"]])
  = [[("Date", Some "2024-01-01"); ("Amount", Some "100.00")]].
Proof. reflexivity. Qed.

Example parse_lowercase_tag :
  parse_transaction_list
    (mk_report ["Date"; "Amount"] [mk_row "data" ["2024-01-01"; "100.00"]])
  = [].
Proof. reflexivity. Qed.

Example parse_duplicate_titles :
  parse_transaction_list (mk_report ["A"; "B"; "A"] [mk_row "Data" ["1"; "2"; "3"]])
  = [[("A", Some "3"); ("B", Some "2")]].
Proof. reflexivity. Qed.

(** ** Claims about the flattener *)

(** C1.  For every valid report document (every data row has a cell for
    every column), [parse_transaction_list] returns one record per row
    whose type is ["Data"], in row order, and none for any other row.  The
    key set of each record is the set of column titles; the keys are
    distinct and follow the column order, and they are the column titles
    themselves when these are distinct. *)
Theorem flattener_one_record_per_data_row (rj : report) :
  valid_report rj →
  let data := List.filter is_data_row (report_rows rj) in
  let out := parse_transaction_list rj in
  length out = length data ∧
  (∀ r, r ∈ data ↔ r ∈ report_rows rj ∧ type r = Some "Data") ∧
  Forall (record_of_columns (column_titles rj)) out.
Proof.
  intros Hvalid. cbn zeta. rewrite parse_transaction_list_eq. split_and!.
  - by rewrite length_map.
  - intros r. rewrite !list_elem_of_In, filter_In. unfold is_data_row.
    by rewrite bool_decide_eq_true.
  - change (map ?f ?l) with (f <$> l). apply Forall_fmap.
    eapply Forall_impl; [exact Hvalid |]. intros r Hlen. cbn.
    destruct (flatten_row_record (column_titles rj) r) as (Hnd & Hsub & _ & Hset & Hfull).
    split_and!; [by apply Hset | done | done | by apply Hfull].
Qed.

Lemma flattener_one_record_per_data_row_witness :
  let rj := mk_report ["Date"; "Amount"]
              [mk_row "Data" ["2024-01-01"; "100.00"]; mk_row "Section" ["Total"];
               mk_row "Data" ["2024-01-02"; "7.50"]] in
  length (parse_transaction_list rj) = 2%nat ∧
  Forall (record_of_columns ["Date"; "Amount"]) (parse_transaction_list rj).
Proof.
  intros rj.
  assert (valid_report rj) as Hvalid by (repeat constructor).
  destruct (flattener_one_record_per_data_row rj Hvalid) as (Hlen & _ & Hrec).
  split; [exact Hlen | exact Hrec].
Defined.

Lemma filter_no_data_rows (rs : list row) :
  Forall (λ r, type r ≠ Some "Data") rs → List.filter is_data_row rs = [].
Proof.
  induction 1 as [|r rs Hr _ IH]; [done |].
  cbn [List.filter]. unfold is_data_row at 1.
  by rewrite bool_decide_eq_false_2.
Qed.

(** C9.  A report document with no rows, or with no row of type ["Data"],
    is flattened to the empty list. *)
Theorem flattener_no_data_rows_empty (rj : report) :
  report_rows rj = [] ∨ Forall (λ r, type r ≠ Some "Data") (report_rows rj) →
  parse_transaction_list rj = [].
Proof.
  intros H. assert (Forall (λ r, type r ≠ Some "Data") (report_rows rj)) as Hall.
  { destruct H as [-> | H]; [constructor | done]. }
  by rewrite parse_transaction_list_eq, filter_no_data_rows.
Qed.

Lemma flattener_no_data_rows_empty_witness :
  parse_transaction_list {| Columns := Some {| Column := Some [{| ColTitle := "Date" |}] |};
                            Rows := None |} = [] ∧
  parse_transaction_list (mk_report ["Date"; "Amount"] []) = [] ∧
  parse_transaction_list
    (mk_report ["Date"; "Amount"]
       [mk_row "Section" ["Total"; "100.00"];
        {| type := None; ColData := None |}]) = [].
Proof.
  split_and!; apply flattener_no_data_rows_empty.
  - left. reflexivity.
  - left. reflexivity.
  - right. repeat constructor; discriminate.
Defined.

(** ** Running the monad *)

Section Runs.
Context {A B : Type}.
Implicit Types (m : M A) (k : A → M B) (w : world).

Lemma run_eta (r : run A) : Run (outcome r) (final r) (events r) = r.
Proof. by destruct r. Qed.

Lemma bind_ok m k w a w' evs :
  m w = Run (Ok a) w' evs →
  bind m k w = Run (outcome (k a w')) (final (k a w')) (evs ++ events (k a w')).
Proof. intros Hm. unfold bind. by rewrite Hm. Qed.

Lemma bind_raise m k w e w' evs :
  m w = Run (Raise e) w' evs → bind m k w = Run (Raise e) w' evs.
Proof. intros Hm. unfold bind. by rewrite Hm. Qed.

Lemma bind_ret (a : A) k w : bind (ret a) k w = k a w.
Proof. unfold bind, ret. cbn. by destruct (k a w). Qed.

Lemma bind_get_world (k : world → M B) w : bind get_world k w = k w w.
Proof. unfold bind, get_world. cbn. by destruct (k w w). Qed.

Lemma bind_assoc {C} m k (k' : B → M C) w :
  bind (bind m k) k' w = bind m (fun a => bind (k a) k') w.
Proof.
  unfold bind. destruct (m w) as [[a| |] w1 evs]; cbn; [|done..].
  destruct (k a w1) as [[b| |] w2 evs']; cbn; [|done..].
  by rewrite app_assoc.
Qed.

(** Continuations that agree give the same run. *)
Lemma bind_ext m k (k' : A → M B) w :
  (∀ a w', k a w' = k' a w') → bind m k w = bind m k' w.
Proof. intros Hk. unfold bind. destruct (outcome (m w)); [by rewrite Hk | done..]. Qed.

Lemma bind_ret_r m w : bind m ret w = m w.
Proof.
  unfold bind. destruct (m w) as [[a| |] w1 evs]; cbn; [|done..].
  by rewrite app_nil_r.
Qed.

End Runs.

Lemma bind_emit {B} (e : event) (k : unit → M B) w :
  bind (emit e) k w = Run (outcome (k tt w)) (final (k tt w)) (e :: events (k tt w)).
Proof. reflexivity. Qed.

(** ** The credential store *)

Lemma upper_client_id : env_key "client_id" = "QBO_CLIENT_ID".
Proof. reflexivity. Qed.

Lemma truthy_Some (s : string) : truthy (Some s) = true ↔ s ≠ "".
Proof.
  cbn. rewrite negb_true_iff. split.
  - intros H ->. discriminate.
  - intros H. by apply String.eqb_neq.
Qed.

(** The run of [_get_secret], by the value of the environment variable. *)
Lemma get_secret_run (name : string) (w : world) :
  _get_secret name w =
  if truthy (environ w !! env_key name)
  then Run (Ok (environ w !! env_key name)) w []
  else Run (Ok (keyring w !! (SERVICE, name))) w [GetPassword SERVICE name].
Proof.
  unfold _get_secret, getenv, env_key, bind, get_world, ret. cbn.
  by destruct (truthy (environ w !! _)).
Qed.

Lemma get_secret_final name w : final (_get_secret name w) = w.
Proof. rewrite get_secret_run. by destruct (truthy _). Qed.

Lemma get_secret_events name w :
  Forall (λ e, is_keyring_event e = true) (events (_get_secret name w)).
Proof. rewrite get_secret_run. destruct (truthy _); repeat constructor. Qed.

Lemma get_secret_ok name w : ∃ v, outcome (_get_secret name w) = Ok v.
Proof. rewrite get_secret_run. destruct (truthy _); eauto. Qed.

(** C4 (as amended).  [_get_secret] returns the value of the environment
    variable [QBO_] followed by the upper-cased name whenever that variable
    is set to a non-empty value, whatever the vault holds, and does not
    consult the vault then; with [QBO_CLIENT_ID] set to ["abc"] the lookup
    of [client_id] returns ["abc"].  When the variable is absent the vault
    is consulted and its answer returned, and the vault is consulted only
    when the variable is absent or empty. *)
Theorem get_secret_prefers_nonempty_env (name : string) (w : world) :
  (∀ v, environ w !! env_key name = Some v → v ≠ "" →
        _get_secret name w = Run (Ok (Some v)) w []) ∧
  (environ w !! env_key name = None →
        _get_secret name w =
        Run (Ok (keyring w !! (SERVICE, name))) w [GetPassword SERVICE name]) ∧
  (events (_get_secret name w) ≠ [] →
        environ w !! env_key name = None ∨ environ w !! env_key name = Some "") ∧
  (environ w !! "QBO_CLIENT_ID" = Some "abc" →
        _get_secret "client_id" w = Run (Ok (Some "abc")) w []).
Proof.
  split_and!.
  - intros v Hv Hne. rewrite get_secret_run, Hv.
    by rewrite (proj2 (truthy_Some v) Hne).
  - intros Hv. by rewrite get_secret_run, Hv.
  - rewrite get_secret_run. destruct (environ w !! env_key name) as [v|] eqn:Hv.
    + destruct (truthy (Some v)) eqn:Ht; [done |]. intros _. right.
      destruct (decide (v = "")) as [->|Hne]; [done |].
      apply truthy_Some in Hne. congruence.
    + intros _. by left.
  - intros Hv. by rewrite get_secret_run, upper_client_id, Hv.
Qed.

Lemma get_secret_prefers_nonempty_env_witness :
  let w := {| environ := {["QBO_CLIENT_ID" := "abc"]};
              keyring := {[(SERVICE, "client_id") := "from-vault"]};
              files := ∅; auth_client := None; inbox := [] |} in
  _get_secret "client_id" w = Run (Ok (Some "abc")) w [].
Proof.
  intros w.
  apply (proj1 (get_secret_prefers_nonempty_env "client_id" w) "abc");
    [reflexivity | discriminate].
Defined.

(** C4 as worded fails: a variable set to the empty string does not win
    over the vault, and the vault is consulted although the variable is
    set. *)
Lemma env_always_wins_counterexample : ¬ env_always_wins.
Proof.
  intros H.
  destruct (H "client_id" empty_env_world "" eq_refl) as [Hout _].
  vm_compute in Hout. discriminate.
Qed.

(** C10.  When the environment variable of a secret is set to the empty
    string, [_get_secret] consults the vault and returns its answer; when
    it is set to a non-empty value, that value is returned and the vault
    is not consulted. *)
Theorem get_secret_empty_env_falls_through (name : string) (w : world) (v : string) :
  environ w !! env_key name = Some v →
  (v = "" →
     _get_secret name w =
     Run (Ok (keyring w !! (SERVICE, name))) w [GetPassword SERVICE name]) ∧
  (v ≠ "" → _get_secret name w = Run (Ok (Some v)) w []).
Proof.
  intros Hv. rewrite get_secret_run, Hv. split.
  - by intros ->.
  - intros Hne. by rewrite (proj2 (truthy_Some v) Hne).
Qed.

Lemma get_secret_empty_env_falls_through_witness :
  _get_secret "client_id" empty_env_world =
  Run (Ok (Some "from-vault")) empty_env_world [GetPassword SERVICE "client_id"].
Proof.
  apply (proj1 (get_secret_empty_env_falls_through "client_id" empty_env_world ""
                  eq_refl) eq_refl).
Defined.

(** ** The auth client *)

Lemma truthy_false_missing v : truthy v = false ↔ missing v.
Proof.
  unfold missing. destruct v as [s|]; cbn.
  - rewrite negb_false_iff, String.eqb_eq. split; [intros ->; by right |].
    by intros [?|[= ->]].
  - split; [by left | done].
Qed.

Section AuthClientRuns.
Context `{E : Externals}.

Lemma get_auth_client_cached (w : world) (ac : AuthClient) :
  auth_client w = Some ac → get_auth_client w = Run (Ok ac) w [].
Proof.
  intros Hac. unfold get_auth_client. rewrite bind_get_world, Hac. reflexivity.
Qed.

(** The run of [get_auth_client] when no client has been built yet. *)
Lemma get_auth_client_fresh (w : world) (cid cs : option string) :
  auth_client w = None →
  outcome (_get_secret "client_id" w) = Ok cid →
  outcome (_get_secret "client_secret" w) = Ok cs →
  get_auth_client w =
  let lookups := events (_get_secret "client_id" w)
                 ++ events (_get_secret "client_secret" w) in
  if negb (truthy cid) || negb (truthy cs)
  then Run (Raise (SystemExit missing_keys_message)) w lookups
  else
    let ac := new_client w (default "" cid) (default "" cs) in
    let called := lookups ++ [NewAuthClient (default "" cid) (default "" cs)
                                (ENV w) (REDIRECT_URI w)] in
    match auth_client_init (default "" cid) (default "" cs) (ENV w) (REDIRECT_URI w) with
    | Some e => Run (Raise e) w called
    | None =>
        Run (Ok ac)
          {| environ := environ w; keyring := keyring w; files := files w;
             auth_client := Some ac; inbox := inbox w |}
          called
    end.
Proof.
  intros Hac Hcid Hcs. unfold get_auth_client.
  rewrite bind_get_world, Hac.
  destruct (_get_secret "client_id" w) as [o1 w1 ev1] eqn:H1.
  pose proof (get_secret_final "client_id" w) as Hw1. rewrite H1 in Hw1.
  cbn in Hw1, Hcid. subst w1 o1.
  rewrite (bind_ok _ _ _ _ _ _ H1).
  destruct (_get_secret "client_secret" w) as [o2 w2 ev2] eqn:H2.
  pose proof (get_secret_final "client_secret" w) as Hw2. rewrite H2 in Hw2.
  cbn in Hw2, Hcs. subst w2 o2.
  rewrite (bind_ok _ _ _ _ _ _ H2).
  destruct (negb (truthy cid) || negb (truthy cs)); cbn zeta.
  - cbn. by rewrite app_nil_r.
  - rewrite bind_emit.
    cbn [client_id client_secret environment redirect_uri].
    destruct (auth_client_init _ _ _ _) as [e|]; cbn; by rewrite app_assoc.
Qed.

End AuthClientRuns.

(** C5 (as amended).  When no client has been built yet and the client
    identifier or the client secret resolves to an absent or empty value,
    [get_auth_client] raises [SystemExit] with a message that names the
    [setkeys] command and the two environment variables; the world is
    unchanged and nothing but vault lookups has happened, so the
    constructor was not called.  When both resolve to non-empty values the
    constructor is called with them; if it returns, the client carrying
    them is stored in the module global and returned, and if it raises,
    the exception is raised on and no client is stored. *)
Theorem get_auth_client_needs_nonempty_secrets (E : Externals) (w : world)
    (cid cs : option string) :
  auth_client w = None →
  outcome (_get_secret "client_id" w) = Ok cid →
  outcome (_get_secret "client_secret" w) = Ok cs →
  (missing cid ∨ missing cs →
     outcome (get_auth_client w) = Raise (SystemExit missing_keys_message) ∧
     final (get_auth_client w) = w ∧
     Forall (λ e, is_keyring_event e = true) (events (get_auth_client w))) ∧
  (∀ id secret, cid = Some id → cs = Some secret → id ≠ "" → secret ≠ "" →
     NewAuthClient id secret (ENV w) (REDIRECT_URI w) ∈ events (get_auth_client w) ∧
     (auth_client_init id secret (ENV w) (REDIRECT_URI w) = None →
        outcome (get_auth_client w) = Ok (new_client w id secret) ∧
        auth_client (final (get_auth_client w)) = Some (new_client w id secret)) ∧
     (∀ e, auth_client_init id secret (ENV w) (REDIRECT_URI w) = Some e →
        outcome (get_auth_client w) = Raise e ∧
        auth_client (final (get_auth_client w)) = None)) ∧
  occurs_in "setkeys" missing_keys_message = true ∧
  occurs_in "QBO_CLIENT_ID / QBO_CLIENT_SECRET" missing_keys_message = true.
Proof.
  intros Hac Hcid Hcs.
  rewrite (get_auth_client_fresh w cid cs Hac Hcid Hcs). cbn zeta.
  split_and!; [| |reflexivity..].
  - intros Hmiss.
    assert (negb (truthy cid) || negb (truthy cs) = true) as ->.
    { apply orb_true_iff. rewrite !negb_true_iff, !truthy_false_missing. done. }
    cbn [outcome final events]. split_and!; [done..|].
    apply Forall_app. split; apply get_secret_events.
  - intros id secret -> -> Hid Hsecret.
    apply truthy_Some in Hid, Hsecret. rewrite Hid, Hsecret.
    cbn [negb orb].
    change (default "" (Some id)) with id. change (default "" (Some secret)) with secret.
    destruct (auth_client_init id secret (ENV w) (REDIRECT_URI w)) as [e|];
      cbn [outcome final events auth_client].
    + split; [|split].
      * apply elem_of_app. right. apply list_elem_of_here.
      * done.
      * by intros ? [= <-].
    + split; [|split].
      * apply elem_of_app. right. apply list_elem_of_here.
      * done.
      * done.
Qed.

Lemma get_auth_client_needs_nonempty_secrets_witness :
  outcome (@get_auth_client ok_externals configured_world)
    = Ok (new_client configured_world "abc" "s3cret") ∧
  outcome (@get_auth_client offline_externals configured_world)
    = Raise (External "ConnectionError") ∧
  outcome (@get_auth_client ok_externals empty_vault_world)
    = Raise (SystemExit missing_keys_message).
Proof.
  split_and!.
  - apply (proj1 (proj2 (proj1 (proj2
             (get_auth_client_needs_nonempty_secrets ok_externals configured_world
                (Some "abc") (Some "s3cret") eq_refl eq_refl eq_refl))
             "abc" "s3cret" eq_refl eq_refl ltac:(discriminate) ltac:(discriminate)))
             eq_refl).
  - apply (proj2 (proj2 (proj1 (proj2
             (get_auth_client_needs_nonempty_secrets offline_externals configured_world
                (Some "abc") (Some "s3cret") eq_refl eq_refl eq_refl))
             "abc" "s3cret" eq_refl eq_refl ltac:(discriminate) ltac:(discriminate)))
             (External "ConnectionError") eq_refl).
  - apply (get_auth_client_needs_nonempty_secrets ok_externals empty_vault_world
             (Some "") (Some "s3cret") eq_refl eq_refl eq_refl).
    left. right. reflexivity.
Defined.

(** C5 as worded fails: an empty client identifier stored in the vault is
    present, yet [get_auth_client] raises the configuration error, with a
    constructor that would not fail. *)
Lemma present_secrets_give_client_counterexample : ¬ present_secrets_give_client.
Proof.
  intros H.
  destruct (H ok_externals empty_vault_world (Some "") (Some "s3cret")
              (λ _ _ _ _, eq_refl) eq_refl eq_refl eq_refl)
    as [_ Hpresent].
  destruct Hpresent as [ac Hac]; [split; eexists; reflexivity |].
  vm_compute in Hac. discriminate.
Qed.

(** ** Writing and reading JSON text *)

(** Scanning the escape of a character inside a string literal reads the
    character back. *)
Lemma lex_escape_char (c : ascii) (acc rest : string) :
  Json.lex (Json.InString acc) (Json.escape_char c +:+ rest)
  = Json.lex (Json.InString (acc +:+ String c "")) rest.
Proof.
  destruct c as [[] [] [] [] [] [] [] []]; reflexivity.
Qed.

Lemma append_cons (x : ascii) (a b : string) : String x a +:+ b = String x (a +:+ b).
Proof. reflexivity. Qed.

Lemma append_assoc (a b c : string) : (a +:+ b) +:+ c = a +:+ (b +:+ c).
Proof.
  induction a as [|x a IH]; [reflexivity |].
  by rewrite !append_cons, IH.
Qed.

Lemma append_nil_right (a : string) : a +:+ "" = a.
Proof.
  induction a as [|x a IH]; [reflexivity |].
  by rewrite append_cons, IH.
Qed.

Lemma lex_encode_body (s acc rest : string) :
  Json.lex (Json.InString acc) (Json.encode_body s +:+ String Json.dquote rest)
  = Json.push (Json.TString (acc +:+ s)) (Json.lex Json.Outside rest).
Proof.
  revert acc. induction s as [|c s IH]; intros acc.
  - rewrite append_nil_right. reflexivity.
  - cbn [Json.encode_body]. rewrite append_assoc, lex_escape_char, IH.
    rewrite append_assoc. reflexivity.
Qed.

Lemma lex_string_literal (s rest : string) :
  Json.lex Json.Outside (Json.encode_string s +:+ rest)
  = Json.push (Json.TString s) (Json.lex Json.Outside rest).
Proof.
  unfold Json.encode_string.
  change (String Json.dquote ?x +:+ rest) with (String Json.dquote (x +:+ rest)).
  rewrite append_assoc.
  change (String Json.dquote "" +:+ rest) with (String Json.dquote rest).
  change (Json.lex Json.Outside (String Json.dquote ?x))
    with (Json.lex (Json.InString "") x).
  apply lex_encode_body.
Qed.

Lemma lex_json_of (level : nat) (v : option string) (rest : string) :
  Json.lex Json.Outside (Json.dumps_at level (json_of v) +:+ rest)
  = Json.push (token_of v) (Json.lex Json.Outside rest).
Proof.
  destruct v as [s|]; [apply lex_string_literal | reflexivity].
Qed.

Lemma lex_brace_indent (rest : string) :
  Json.lex Json.Outside (String "{" (Json.newline_indent 1) +:+ rest)
  = Json.push Json.TLBrace (Json.lex Json.Outside rest).
Proof. reflexivity. Qed.

Lemma lex_comma_indent (rest : string) :
  Json.lex Json.Outside (String "," (Json.newline_indent 1) +:+ rest)
  = Json.push Json.TComma (Json.lex Json.Outside rest).
Proof. reflexivity. Qed.

Lemma lex_colon (rest : string) :
  Json.lex Json.Outside (": " +:+ rest)
  = Json.push Json.TColon (Json.lex Json.Outside rest).
Proof. reflexivity. Qed.

Lemma dumps_token_record (a r realm : option string) :
  Json.dumps (token_record a r realm) =
  String "{" (Json.newline_indent 1) +:+ Json.encode_string "access_token" +:+ ": "
    +:+ Json.dumps_at 1 (json_of a)
    +:+ String "," (Json.newline_indent 1) +:+ Json.encode_string "refresh_token" +:+ ": "
    +:+ Json.dumps_at 1 (json_of r)
    +:+ String "," (Json.newline_indent 1) +:+ Json.encode_string "realm_id" +:+ ": "
    +:+ Json.dumps_at 1 (json_of realm)
    +:+ String Json.newline "}".
Proof.
  unfold Json.dumps, token_record. cbn [Json.dumps_at map Json.join].
  rewrite !append_assoc. reflexivity.
Qed.

Lemma lex_token_record (a r realm : option string) :
  Json.lex Json.Outside (Json.dumps (token_record a r realm)) =
  Json.Tokens
    [Json.TLBrace;
     Json.TString "access_token"; Json.TColon; token_of a; Json.TComma;
     Json.TString "refresh_token"; Json.TColon; token_of r; Json.TComma;
     Json.TString "realm_id"; Json.TColon; token_of realm;
     Json.TRBrace].
Proof.
  rewrite dumps_token_record.
  rewrite lex_brace_indent, lex_string_literal, lex_colon, lex_json_of.
  rewrite lex_comma_indent, lex_string_literal, lex_colon, lex_json_of.
  rewrite lex_comma_indent, lex_string_literal, lex_colon, lex_json_of.
  reflexivity.
Qed.

(** Reading back the text written for a token record. *)
Lemma loads_dumps_token_record (a r realm : option string) :
  Json.loads (Json.dumps (token_record a r realm)) = Json.Value (token_record a r realm).
Proof.
  unfold Json.loads. rewrite lex_token_record.
  destruct a, r, realm; reflexivity.
Qed.

Lemma json_dump_file_run (v : json) (name : string) (w : world) :
  json_dump_file v name w =
  Run (Ok tt)
    {| environ := environ w; keyring := keyring w;
       files := <[name := Json.dumps v]> (files w);
       auth_client := auth_client w; inbox := inbox w |}
    [FileWrite name].
Proof. reflexivity. Qed.

Lemma json_load_file_run (name content : string) (w : world) :
  files w !! name = Some content →
  json_load_file name w = json_loads content w.
Proof.
  intros Hf. unfold json_load_file. rewrite bind_get_world, Hf. reflexivity.
Qed.

Lemma json_load_token_record (w : world) (a r realm : option string) :
  files w !! "tokens.json" = Some (Json.dumps (token_record a r realm)) →
  json_load_file "tokens.json" w = Run (Ok (token_record a r realm)) w [].
Proof.
  intros Hf. rewrite (json_load_file_run _ _ _ Hf).
  unfold json_loads. rewrite loads_dumps_token_record. reflexivity.
Qed.

(** ** The query of a callback *)

Lemma dict_get_set {V} (k k' : string) (v : V) (d : Dict.t V) :
  Dict.get k (Dict.set k' v d) = if decide (k' = k) then Some v else Dict.get k d.
Proof.
  induction d as [|[k0 v0] d IH]; cbn [Dict.set Dict.get].
  - done.
  - destruct (decide (k0 = k')) as [->|Hne]; cbn [Dict.get].
    + by destruct (decide (k' = k)).
    + rewrite IH. destruct (decide (k0 = k)) as [->|]; [|done].
      by rewrite decide_False by done.
Qed.

(** [parse_qs] never maps a name to an empty list. *)
Lemma parse_qs_nonempty (pairs : list (string * string)) (name : string) :
  Dict.get name (parse_qs pairs) ≠ Some [].
Proof.
  unfold parse_qs.
  assert (∀ d, (∀ k, Dict.get k d ≠ Some []) →
            ∀ k, Dict.get k
                   (fold_left
                      (fun d nv =>
                         match Dict.get nv.1 d with
                         | Some vs => Dict.set nv.1 (vs ++ [nv.2]) d
                         | None => Dict.set nv.1 [nv.2] d
                         end) pairs d) ≠ Some []) as Hinv.
  { induction pairs as [|[n v] pairs IH]; intros d Hd k; cbn [fold_left]; [apply Hd |].
    apply IH. intros k'. cbn [fst snd].
    destruct (Dict.get n d) as [vs|]; rewrite dict_get_set; case_decide; try apply Hd.
    - intros [= Heq]. by destruct vs.
    - done. }
  apply Hinv. intros k. done.
Qed.

Lemma first_qs_get (name : string) (pairs : list (string * string)) :
  first (qs_get name (parse_qs pairs)) = ret (query_value name pairs).
Proof.
  unfold qs_get, query_value.
  pose proof (parse_qs_nonempty pairs name) as Hne.
  destruct (Dict.get name (parse_qs pairs)) as [[|v vs]|]; done.
Qed.

(** ** The callback handler *)

Section Callback.
Context `{E : Externals}.

Lemma get_bearer_token_run (ac : AuthClient) (code realm_id : option string) (w : world) :
  get_bearer_token ac code realm_id w =
  match token_endpoint ac code realm_id with
  | inl e => Run (Raise e) w [GetBearerToken code realm_id]
  | inr (access, refresh) =>
      Run (Ok tt)
        {| environ := environ w; keyring := keyring w; files := files w;
           auth_client := Some (with_tokens ac access refresh); inbox := inbox w |}
        [GetBearerToken code realm_id]
  end.
Proof.
  unfold get_bearer_token. rewrite bind_emit.
  destruct (token_endpoint ac code realm_id) as [e|[access refresh]]; reflexivity.
Qed.

(** What [do_GET] does once the response is out. *)
Lemma exchange_and_save_run (code realm_id : option string) (w : world) :
  let got := get_auth_client w in
  (let* ac := get_auth_client in
   get_bearer_token ac code realm_id;;
   let* w := get_world in
   match auth_client w with
   | None => raise (NotModelled "auth_client")
   | Some ac =>
       json_dump_file
         (token_record (access_token ac) (refresh_token ac) realm_id)
         "tokens.json"
   end) w =
  match outcome got with
  | Ok ac =>
      match token_endpoint ac code realm_id with
      | inl e =>
          Run (Raise e) (final got) (events got ++ [GetBearerToken code realm_id])
      | inr (access, refresh) =>
          Run (Ok tt) (world_with_tokens (final got) ac access refresh realm_id)
            (events got ++ [GetBearerToken code realm_id; FileWrite "tokens.json"])
      end
  | Raise e => Run (Raise e) (final got) (events got)
  | Hang => Run Hang (final got) (events got)
  end.
Proof.
  cbn zeta.
  destruct (get_auth_client w) as [[ac| |] w1 evs] eqn:Hgot; cbn [outcome final events].
  - rewrite (bind_ok _ _ _ _ _ _ Hgot).
    pose proof (get_bearer_token_run ac code realm_id w1) as Hgb.
    destruct (token_endpoint ac code realm_id) as [e|[access refresh]].
    + rewrite (bind_raise _ _ _ _ _ _ Hgb). reflexivity.
    + rewrite (bind_ok _ _ _ _ _ _ Hgb), bind_get_world.
      cbn [auth_client]. rewrite json_dump_file_run. reflexivity.
  - by rewrite (bind_raise _ _ _ _ _ _ Hgot).
  - unfold bind. by rewrite Hgot.
Qed.

(** The run of [do_GET]: an exception of the URL library ends it before
    anything is sent; otherwise it goes by the outcome of
    [get_auth_client] and the answer of the token endpoint. *)
Lemma do_GET_run (path : string) (w : world) :
  let code := query_value "code" (query_pairs path) in
  let realm_id := query_value "realmId" (query_pairs path) in
  let got := get_auth_client w in
  do_GET path w =
  match query_error path with
  | Some e => Run (Raise e) w []
  | None =>
      match outcome got with
      | Ok ac =>
          match token_endpoint ac code realm_id with
          | inl e =>
              Run (Raise e) (final got)
                (ok_response ++ events got ++ [GetBearerToken code realm_id])
          | inr (access, refresh) =>
              Run (Ok tt) (world_with_tokens (final got) ac access refresh realm_id)
                (ok_response ++ events got
                   ++ [GetBearerToken code realm_id; FileWrite "tokens.json"])
          end
      | Raise e => Run (Raise e) (final got) (ok_response ++ events got)
      | Hang => Run Hang (final got) (ok_response ++ events got)
      end
  end.
Proof.
  cbn zeta. unfold do_GET. destruct (query_error path) as [e|]; [reflexivity |].
  rewrite bind_ret, !first_qs_get, !bind_ret, !bind_emit.
  rewrite exchange_and_save_run. cbn zeta.
  destruct (outcome (get_auth_client w)) as [ac| |]; [|reflexivity..].
  destruct (token_endpoint ac _ _) as [e|[access refresh]]; reflexivity.
Qed.

(** ** What [get_auth_client] leaves behind *)

Lemma get_auth_client_cases (w : world) :
  (∃ ac, auth_client w = Some ac ∧ get_auth_client w = Run (Ok ac) w []) ∨
  (∃ e evs, auth_client w = None ∧ get_auth_client w = Run (Raise e) w evs ∧
            Forall (λ e, is_config_event e = true) evs) ∨
  (∃ ac evs, auth_client w = None ∧
     get_auth_client w =
       Run (Ok ac)
         {| environ := environ w; keyring := keyring w; files := files w;
            auth_client := Some ac; inbox := inbox w |} evs ∧
     Forall (λ e, is_config_event e = true) evs).
Proof.
  destruct (auth_client w) as [ac|] eqn:Hac.
  - left. exists ac. split; [done | by apply get_auth_client_cached].
  - right.
    destruct (get_secret_ok "client_id" w) as [cid Hcid].
    destruct (get_secret_ok "client_secret" w) as [cs Hcs].
    rewrite (get_auth_client_fresh w cid cs Hac Hcid Hcs). cbn zeta.
    assert (Forall (λ e, is_config_event e = true)
              (events (_get_secret "client_id" w) ++ events (_get_secret "client_secret" w)))
      as Hev.
    { apply Forall_app. split;
        (eapply Forall_impl; [apply get_secret_events |]);
        intros [] He; done. }
    assert (∀ a b c d, Forall (λ e, is_config_event e = true)
              ((events (_get_secret "client_id" w) ++ events (_get_secret "client_secret" w))
                 ++ [NewAuthClient a b c d])) as Hev'.
    { intros. apply Forall_app. split; [done | repeat constructor]. }
    destruct (negb (truthy cid) || negb (truthy cs)).
    + left. eexists _, _. split_and!; [done | reflexivity | done].
    + destruct (auth_client_init _ _ _ _) as [e|].
      * left. eexists _, _. split_and!; [done | reflexivity | done].
      * right. eexists _, _. split_and!; [done | reflexivity | done].
Qed.

Lemma get_auth_client_events (w : world) :
  Forall (λ e, is_config_event e = true) (events (get_auth_client w)).
Proof.
  destruct (get_auth_client_cases w)
    as [(ac & _ & ->)|[(e & evs & _ & -> & H)|(ac & evs & _ & -> & H)]];
    [constructor | done | done].
Qed.

Lemma get_auth_client_inbox (w : world) :
  inbox (final (get_auth_client w)) = inbox w.
Proof.
  by destruct (get_auth_client_cases w)
    as [(ac & _ & ->)|[(e & evs & _ & -> & H)|(ac & evs & _ & -> & H)]].
Qed.

Lemma get_auth_client_files (w : world) :
  files (final (get_auth_client w)) = files w.
Proof.
  by destruct (get_auth_client_cases w)
    as [(ac & _ & ->)|[(e & evs & _ & -> & H)|(ac & evs & _ & -> & H)]].
Qed.

Lemma get_auth_client_not_hang (w : world) : outcome (get_auth_client w) ≠ Hang.
Proof.
  by destruct (get_auth_client_cases w)
    as [(ac & _ & ->)|[(e & evs & _ & -> & H)|(ac & evs & _ & -> & H)]].
Qed.

End Callback.

Lemma filter_none {A} (f : A → bool) (l : list A) :
  Forall (λ x, f x = false) l → List.filter f l = [].
Proof.
  induction 1 as [|x l Hx _ IH]; [done |]. cbn [List.filter]. by rewrite Hx.
Qed.

Lemma config_events_no_exchange (evs : list event) :
  Forall (λ e, is_config_event e = true) evs → List.filter is_exchange evs = [].
Proof.
  intros H. apply filter_none. eapply Forall_impl; [done |]. by intros [].
Qed.

Lemma config_events_no_browser (evs : list event) :
  Forall (λ e, is_config_event e = true) evs → Forall (λ e, is_browser_event e = false) evs.
Proof. intros H. eapply Forall_impl; [done |]. by intros []. Qed.

Section CallbackClaims.
Context `{E : Externals}.

(** A request target that the URL library refuses ends [do_GET] at once. *)
Lemma do_GET_refused (path : string) (w : world) (e : exn) :
  query_error path = Some e → do_GET path w = Run (Raise e) w [].
Proof. intros Hq. rewrite do_GET_run. cbn zeta. by rewrite Hq. Qed.

(** Otherwise the events of [do_GET] are the response followed by events
    that do not reach the browser. *)
Lemma do_GET_events (path : string) (w : world) :
  query_error path = None →
  ∃ rest, events (do_GET path w) = ok_response ++ rest ∧
          Forall (λ e, is_browser_event e = false) rest ∧
          (exchanges rest ≤ 1)%nat.
Proof.
  intros Hq. rewrite do_GET_run. cbn zeta. rewrite Hq.
  pose proof (get_auth_client_events w) as Hev.
  pose proof (config_events_no_browser _ Hev) as Hnb.
  pose proof (config_events_no_exchange _ Hev) as Hne.
  destruct (outcome (get_auth_client w)) as [ac| |].
  - destruct (token_endpoint ac _ _) as [e|[access refresh]];
      eexists; (split; [reflexivity |]); split.
    + apply Forall_app. split; [done | repeat constructor].
    + unfold exchanges. rewrite List.filter_app, Hne. cbn. lia.
    + apply Forall_app. split; [done | repeat constructor].
    + unfold exchanges. rewrite List.filter_app, Hne. cbn. lia.
  - eexists. split; [reflexivity |]. split; [done |].
    unfold exchanges. rewrite Hne. cbn. lia.
  - eexists. split; [reflexivity |]. split; [done |].
    unfold exchanges. rewrite Hne. cbn. lia.
Qed.

Lemma do_GET_exchanges (path : string) (w : world) :
  (exchanges (events (do_GET path w)) ≤ 1)%nat.
Proof.
  destruct (query_error path) as [e|] eqn:Hq.
  - rewrite (do_GET_refused path w e Hq). cbn. lia.
  - destruct (do_GET_events path w Hq) as (rest & -> & _ & Hle).
    unfold exchanges in *. by rewrite List.filter_app.
Qed.

Lemma do_GET_browser_output (path : string) (w : world) :
  browser_output (events (do_GET path w)) =
  match query_error path with
  | Some _ => []
  | None => ok_response
  end.
Proof.
  destruct (query_error path) as [e|] eqn:Hq.
  - by rewrite (do_GET_refused path w e Hq).
  - destruct (do_GET_events path w Hq) as (rest & -> & Hrest & _).
    unfold browser_output. rewrite List.filter_app, (filter_none _ _ Hrest).
    reflexivity.
Qed.

Lemma do_GET_inbox (path : string) (w : world) :
  inbox (final (do_GET path w)) = inbox w.
Proof.
  rewrite do_GET_run. cbn zeta. destruct (query_error path); [done |].
  pose proof (get_auth_client_inbox w) as Hin.
  destruct (outcome (get_auth_client w)) as [ac| |]; [|done..].
  by destruct (token_endpoint ac _ _) as [e|[access refresh]].
Qed.

Lemma do_GET_not_hang (path : string) (w : world) : outcome (do_GET path w) ≠ Hang.
Proof.
  rewrite do_GET_run. cbn zeta. destruct (query_error path); [done |].
  pose proof (get_auth_client_not_hang w) as Hnh.
  destruct (outcome (get_auth_client w)) as [ac| |]; [|done..].
  by destruct (token_endpoint ac _ _) as [e|[access refresh]].
Qed.

End CallbackClaims.

(** C2.  For every request and every world, the fixed response (status
    200, end of headers, the body) is out before the token endpoint is
    called: whenever [do_GET] calls the token endpoint, its events begin
    with that response and no later event reaches the browser.  This is
    so for every request target that the URL library accepts; one that it
    refuses ends the handler before anything is sent and before any
    exchange.  What the browser receives does not depend on the token
    endpoint or on any collaborator but the URL library; when the token
    endpoint raises, the exception leaves the handler, the response has
    been sent all the same and no file is written. *)
Theorem callback_response_precedes_exchange (E : Externals) (path : string) (w : world) :
  (∀ code realm_id,
     GetBearerToken code realm_id ∈ events (do_GET path w) →
     ∃ rest, events (do_GET path w) = ok_response ++ rest ∧
             Forall (λ e, is_browser_event e = false) rest) ∧
  (query_error path = None →
     ∃ rest, events (do_GET path w) = ok_response ++ rest ∧
             Forall (λ e, is_browser_event e = false) rest) ∧
  (∀ e, query_error path = Some e → do_GET path w = Run (Raise e) w []) ∧
  (∀ E' : Externals,
     @query_error E' path = @query_error E path →
     browser_output (events (@do_GET E' path w)) = browser_output (events (@do_GET E path w))) ∧
  (∀ ac e,
     query_error path = None →
     outcome (get_auth_client w) = Ok ac →
     token_endpoint ac (query_value "code" (query_pairs path))
       (query_value "realmId" (query_pairs path)) = inl e →
     outcome (do_GET path w) = Raise e ∧
     browser_output (events (do_GET path w)) = ok_response ∧
     files (final (do_GET path w)) = files w).
Proof.
  split_and!.
  - intros code realm_id Hin. destruct (query_error path) as [e|] eqn:Hq.
    + rewrite (do_GET_refused path w e Hq) in Hin. by apply elem_of_nil in Hin.
    + destruct (do_GET_events path w Hq) as (rest & Hev & Hrest & _). eauto.
  - intros Hq. destruct (do_GET_events path w Hq) as (rest & Hev & Hrest & _). eauto.
  - intros e Hq. by apply do_GET_refused.
  - intros E' Hsame. by rewrite !do_GET_browser_output, Hsame.
  - intros ac e Hq Hac He. split_and!.
    + rewrite do_GET_run. cbn zeta. by rewrite Hq, Hac, He.
    + by rewrite do_GET_browser_output, Hq.
    + rewrite do_GET_run. cbn zeta. rewrite Hq, Hac, He. apply get_auth_client_files.
Qed.

(** ** The listener and the login flow *)

Section Login.
Context `{E : Externals}.

(** The run of [handle_one_request] on a request that is not a [GET]. *)
Lemma handle_one_request_other (req : request) (w : world) :
  String.eqb (command req) "GET" = false →
  handle_one_request req w =
  Run (Ok tt) w
    (SendResponse 501 :: EndHeaders
       :: (if String.eqb (command req) "HEAD" then [] else [WfileWrite (error_page req)])).
Proof.
  intros Hcmd. unfold handle_one_request. rewrite Hcmd.
  by destruct (String.eqb (command req) "HEAD").
Qed.

Lemma handle_one_request_inbox (req : request) (w : world) :
  inbox (final (handle_one_request req w)) = inbox w.
Proof.
  destruct (String.eqb (command req) "GET") eqn:Hcmd.
  - unfold handle_one_request. rewrite Hcmd. apply do_GET_inbox.
  - by rewrite (handle_one_request_other req w Hcmd).
Qed.

Lemma handle_one_request_exchanges (req : request) (w : world) :
  (exchanges (events (handle_one_request req w)) ≤ 1)%nat.
Proof.
  destruct (String.eqb (command req) "GET") eqn:Hcmd.
  - unfold handle_one_request. rewrite Hcmd. apply do_GET_exchanges.
  - rewrite (handle_one_request_other req w Hcmd).
    destruct (String.eqb (command req) "HEAD"); cbn; lia.
Qed.

Lemma handle_one_request_not_hang (req : request) (w : world) :
  outcome (handle_one_request req w) ≠ Hang.
Proof.
  destruct (String.eqb (command req) "GET") eqn:Hcmd.
  - unfold handle_one_request. rewrite Hcmd. apply do_GET_not_hang.
  - by rewrite (handle_one_request_other req w Hcmd).
Qed.

(** [handle_request] with a request waiting: the request leaves the inbox
    and is handled; an [Exception] of the handler is logged. *)
Lemma handle_request_run (req : request) (rest : list request) (w : world) :
  inbox w = req :: rest →
  handle_request w =
  let r := handle_one_request req (with_inbox w rest) in
  match outcome r with
  | Raise e =>
      if is_Exception e then Run (Ok tt) (final r) (events r ++ [HandleError e]) else r
  | _ => r
  end.
Proof.
  intros Hin. unfold handle_request. rewrite Hin.
  change ((set_inbox rest;; handle_one_request req) w)
    with (Run (outcome (handle_one_request req (with_inbox w rest)))
              (final (handle_one_request req (with_inbox w rest)))
              ([] ++ events (handle_one_request req (with_inbox w rest)))).
  cbn [app]. rewrite run_eta. reflexivity.
Qed.

Lemma handle_request_idle (w : world) :
  inbox w = [] → handle_request w = Run Hang w [].
Proof. intros Hin. unfold handle_request. by rewrite Hin. Qed.

Lemma handle_request_served (req : request) (rest : list request) (w : world) :
  inbox w = req :: rest →
  inbox (final (handle_request w)) = rest ∧
  outcome (handle_request w) ≠ Hang ∧
  (exchanges (events (handle_request w)) ≤ 1)%nat.
Proof.
  intros Hin. rewrite (handle_request_run req rest w Hin). cbn zeta.
  pose proof (handle_one_request_inbox req (with_inbox w rest)) as Hi.
  pose proof (handle_one_request_exchanges req (with_inbox w rest)) as Hx.
  pose proof (handle_one_request_not_hang req (with_inbox w rest)) as Hh.
  destruct (outcome (handle_one_request req (with_inbox w rest))) as [[]|e|] eqn:Ho;
    [by rewrite Ho | | done].
  destruct (is_Exception e); cbn [outcome final events].
  - split_and!; [done | done |].
    unfold exchanges in *. rewrite List.filter_app, length_app. cbn. lia.
  - by rewrite Ho.
Qed.

(** The run of [login], by the outcome of [get_auth_client]. *)
Lemma login_run (w : world) :
  let got := get_auth_client w in
  login w =
  match outcome got with
  | Ok ac =>
      let r := handle_request (final got) in
      Run (outcome r) (final r)
        (events got ++ OpenBrowser (authorization_url ac) :: events r)
  | Raise e => Run (Raise e) (final got) (events got)
  | Hang => Run Hang (final got) (events got)
  end.
Proof.
  cbn zeta. unfold login.
  destruct (get_auth_client w) as [[ac| |] w1 evs] eqn:Hgot; cbn [outcome final events].
  - rewrite (bind_ok _ _ _ _ _ _ Hgot), bind_emit. reflexivity.
  - by rewrite (bind_raise _ _ _ _ _ _ Hgot).
  - unfold bind. by rewrite Hgot.
Qed.

End Login.

(** C3.  In every run of [login] the token endpoint is called at most
    once, and at most one request leaves the listener's inbox.  When the
    auth client is available and a request arrives, exactly that request
    is served: [login] comes to an end and every later request is still
    waiting, unhandled. *)
Theorem login_serves_one_request (E : Externals) (w : world) :
  (exchanges (events (login w)) ≤ 1)%nat ∧
  (inbox (final (login w)) = inbox w ∨
   ∃ req, inbox w = req :: inbox (final (login w))) ∧
  (∀ ac req rest,
     outcome (get_auth_client w) = Ok ac →
     inbox w = req :: rest →
     inbox (final (login w)) = rest ∧ outcome (login w) ≠ Hang).
Proof.
  rewrite login_run. cbn zeta.
  pose proof (get_auth_client_events w) as Hev.
  pose proof (config_events_no_exchange _ Hev) as Hne.
  pose proof (get_auth_client_inbox w) as Hin.
  destruct (outcome (get_auth_client w)) as [ac| |] eqn:Hgot; cbn [outcome final events].
  - destruct (inbox w) as [|req rest] eqn:Hw.
    + rewrite (handle_request_idle _ Hin). cbn [outcome final events].
      split_and!.
      * unfold exchanges. rewrite List.filter_app, Hne. cbn. lia.
      * left. congruence.
      * intros ? ? ? _ [=].
    + destruct (handle_request_served req rest _ Hin) as (Hrest & Hnh & Hx).
      split_and!.
      * unfold exchanges in *. rewrite List.filter_app, Hne.
        cbn [app List.filter is_exchange]. done.
      * right. exists req. by rewrite Hrest.
      * intros ? ? ? _ [= <- <-]. done.
  - split_and!.
    + unfold exchanges. rewrite Hne. cbn. lia.
    + left. done.
    + intros ? ? ? [=].
  - split_and!.
    + unfold exchanges. rewrite Hne. cbn. lia.
    + left. done.
    + intros ? ? ? [=].
Qed.

Lemma login_serves_one_request_witness :
  inbox (final (@login (sample_externals true {| status_code := 200; text := "{}" |})
                  login_world)) = [callback] ∧
  inbox (final (@login (sample_externals false {| status_code := 200; text := "{}" |})
                  login_world)) = [callback].
Proof.
  split.
  - apply (proj2 (proj2 (login_serves_one_request
                           (sample_externals true {| status_code := 200; text := "{}" |})
                           login_world))
             (new_client configured_world "abc" "s3cret") callback [callback]);
      reflexivity.
  - apply (proj2 (proj2 (login_serves_one_request
                           (sample_externals false {| status_code := 200; text := "{}" |})
                           login_world))
             (new_client configured_world "abc" "s3cret") callback [callback]);
      reflexivity.
Defined.

(** ** The token file *)

Lemma subscript_token_record (a r realm : option string) :
  subscript (token_record a r realm) "access_token" = ret (json_of a) ∧
  subscript (token_record a r realm) "refresh_token" = ret (json_of r) ∧
  subscript (token_record a r realm) "realm_id" = ret (json_of realm).
Proof. split_and!; reflexivity. Qed.

(** A callback that ends well leaves the tokens of the exchange, and the
    realm of the query, in [tokens.json]. *)
Lemma do_GET_saved `{E : Externals} (path : string) (w : world) :
  outcome (do_GET path w) = Ok tt →
  ∃ ac access refresh,
    outcome (get_auth_client w) = Ok ac ∧
    token_endpoint ac (query_value "code" (query_pairs path))
      (query_value "realmId" (query_pairs path)) = inr (access, refresh) ∧
    final (do_GET path w) =
      world_with_tokens (final (get_auth_client w)) ac access refresh
        (query_value "realmId" (query_pairs path)).
Proof.
  rewrite do_GET_run. cbn zeta. destruct (query_error path); [done |].
  destruct (outcome (get_auth_client w)) as [ac| |]; [|done..].
  destruct (token_endpoint ac _ _) as [e|[access refresh]] eqn:Htok; [done |].
  intros _. by exists ac, access, refresh.
Qed.

(** C8.  Dumping a token record to [tokens.json] and loading the file
    gives the record back, field for field, whatever the file held
    before: the file then holds the text of the record and nothing else.
    In particular, after a callback that ends well, loading [tokens.json]
    gives the access and refresh tokens stored on the auth client and the
    realm of the query. *)
Theorem token_record_round_trip (E : Externals) (w : world)
    (access refresh realm_id : option string) :
  let saved := final (json_dump_file (token_record access refresh realm_id) "tokens.json" w) in
  files saved !! "tokens.json" = Some (Json.dumps (token_record access refresh realm_id)) ∧
  json_load_file "tokens.json" saved
    = Run (Ok (token_record access refresh realm_id)) saved [] ∧
  subscript (token_record access refresh realm_id) "access_token" = ret (json_of access) ∧
  subscript (token_record access refresh realm_id) "refresh_token" = ret (json_of refresh) ∧
  subscript (token_record access refresh realm_id) "realm_id" = ret (json_of realm_id) ∧
  (∀ path,
     outcome (do_GET path w) = Ok tt →
     ∃ ac, auth_client (final (do_GET path w)) = Some ac ∧
           outcome (json_load_file "tokens.json" (final (do_GET path w)))
           = Ok (token_record (access_token ac) (refresh_token ac)
                   (query_value "realmId" (query_pairs path)))).
Proof.
  cbn zeta. rewrite json_dump_file_run. cbn [final].
  assert (∀ fs : gmap string string,
            <["tokens.json" := Json.dumps (token_record access refresh realm_id)]> fs
              !! "tokens.json"
            = Some (Json.dumps (token_record access refresh realm_id))) as Hlook.
  { intros fs. apply lookup_insert_eq. }
  split_and!; try apply subscript_token_record.
  - apply Hlook.
  - apply json_load_token_record. apply Hlook.
  - intros path Hok.
    destruct (do_GET_saved path w Hok) as (ac & a & r & _ & _ & ->).
    eexists. split; [reflexivity |].
    cbn [with_tokens access_token refresh_token].
    erewrite json_load_token_record; [reflexivity |].
    apply lookup_insert_eq.
Qed.

(** ** The report client *)

Lemma bind_quiet_ok {A B} (m : M A) (k : A → M B) (w : world) (a : A) :
  m w = Run (Ok a) w [] → bind m k w = k a w.
Proof. intros Hm. rewrite (bind_ok _ _ _ _ _ _ Hm). cbn [app]. apply run_eta. Qed.

Lemma quiet_json_load_file (name : string) : quiet (json_load_file name).
Proof.
  intros w. unfold json_load_file. rewrite bind_get_world.
  destruct (files w !! name) as [content|]; [|right; by eexists].
  unfold json_loads. destruct (Json.loads content); [left | right..]; by eexists.
Qed.

Lemma quiet_subscript (t : json) (key : string) : quiet (subscript t key).
Proof.
  intros w. destruct t as [|b|s|items|members]; try (right; by eexists).
  cbn [subscript]. destruct (Dict.get key members); [left | right]; by eexists.
Qed.

Lemma quiet_format (v : json) : quiet (format v).
Proof.
  intros w. destruct v as [|[]|s|items|members]; try (left; by eexists); right; by eexists.
Qed.

Section ReportClient.
Context `{E : Externals}.

Lemma fetch_json_run (url authorization : string) (w : world) :
  fetch_json url authorization w =
  match requests_get url authorization with
  | inl e => Run (Raise e) w [HttpGet url authorization]
  | inr r =>
      if ((400 <=? status_code r) && (status_code r <? 600))%Z
      then Run (Raise (HTTPError (status_code r))) w
             [HttpGet url authorization; HttpReply (status_code r)]
      else
        match Json.loads (text r) with
        | Json.Value body =>
            Run (Ok body) w [HttpGet url authorization; HttpReply (status_code r)]
        | Json.DecodeError =>
            Run (Raise JSONDecodeError) w
              [HttpGet url authorization; HttpReply (status_code r)]
        | Json.NotModelled =>
            Run (Raise (NotModelled "json")) w
              [HttpGet url authorization; HttpReply (status_code r)]
        end
  end.
Proof.
  unfold fetch_json, http_get, raise_for_status, json_loads.
  destruct (requests_get url authorization) as [e|r]; [reflexivity |].
  unfold bind, emit, ret. cbn [outcome final events app].
  destruct ((400 <=? status_code r) && (status_code r <? 600))%Z; [reflexivity |].
  cbn [outcome final events app].
  destruct (Json.loads (text r)); reflexivity.
Qed.

(** [company_info_raw] either stops before any request, in the world it
    got, or asks for the company info of a realm at the host of [ENV]. *)
Lemma company_info_raw_cases (w : world) :
  (∃ e, company_info_raw w = Run (Raise e) w []) ∨
  (∃ realm access,
     company_info_raw w =
     (let* body := fetch_json (company_info_url (ENV w) realm) ("Bearer " +:+ access) in
      emit (Printed (Json.dumps body));;
      emit (Printed ("DEBUG URL: " +:+ company_info_url (ENV w) realm))) w).
Proof.
  unfold company_info_raw.
  destruct (quiet_json_load_file "tokens.json" w) as [[t Ht]|[e He]];
    [|left; exists e; by rewrite (bind_raise _ _ _ _ _ _ He)].
  rewrite (bind_quiet_ok _ _ _ _ Ht), bind_get_world.
  destruct (quiet_subscript t "realm_id" w) as [[realm Hr]|[e He]];
    [|left; exists e; by rewrite (bind_raise _ _ _ _ _ _ He)].
  rewrite (bind_quiet_ok _ _ _ _ Hr).
  destruct (quiet_format realm w) as [[realm_s Hrs]|[e He]];
    [|left; exists e; by rewrite (bind_raise _ _ _ _ _ _ He)].
  rewrite (bind_quiet_ok _ _ _ _ Hrs).
  destruct (quiet_subscript t "access_token" w) as [[access Ha]|[e He]];
    [|left; exists e; by rewrite (bind_raise _ _ _ _ _ _ He)].
  rewrite (bind_quiet_ok _ _ _ _ Ha).
  destruct (quiet_format access w) as [[access_s Has]|[e He]];
    [|left; exists e; by rewrite (bind_raise _ _ _ _ _ _ He)].
  rewrite (bind_quiet_ok _ _ _ _ Has).
  right. exists realm_s, access_s.
  unfold fetch_json. rewrite bind_assoc. apply bind_ext. intros r w'.
  by rewrite bind_assoc.
Qed.

Lemma get_transactions_cases (t_start_date t_end_date : string) (w : world) :
  (∃ e, get_transactions t_start_date t_end_date w = Run (Raise e) w []) ∨
  (∃ realm access,
     get_transactions t_start_date t_end_date w =
     fetch_json (transactions_url (ENV w) realm t_start_date t_end_date)
       ("Bearer " +:+ access) w).
Proof.
  unfold get_transactions.
  destruct (quiet_json_load_file "tokens.json" w) as [[t Ht]|[e He]];
    [|left; exists e; by rewrite (bind_raise _ _ _ _ _ _ He)].
  rewrite (bind_quiet_ok _ _ _ _ Ht), bind_get_world.
  destruct (quiet_subscript t "realm_id" w) as [[realm Hr]|[e He]];
    [|left; exists e; by rewrite (bind_raise _ _ _ _ _ _ He)].
  rewrite (bind_quiet_ok _ _ _ _ Hr).
  destruct (quiet_format realm w) as [[realm_s Hrs]|[e He]];
    [|left; exists e; by rewrite (bind_raise _ _ _ _ _ _ He)].
  rewrite (bind_quiet_ok _ _ _ _ Hrs).
  destruct (quiet_subscript t "access_token" w) as [[access Ha]|[e He]];
    [|left; exists e; by rewrite (bind_raise _ _ _ _ _ _ He)].
  rewrite (bind_quiet_ok _ _ _ _ Ha).
  destruct (quiet_format access w) as [[access_s Has]|[e He]];
    [|left; exists e; by rewrite (bind_raise _ _ _ _ _ _ He)].
  rewrite (bind_quiet_ok _ _ _ _ Has).
  right. exists realm_s, access_s.
  unfold fetch_json. apply bind_ext. intros r w'.
  apply bind_ext. intros _ w''. apply bind_ret_r.
Qed.

End ReportClient.

(** Decompose membership in an explicit list of events. *)
Ltac in_events H :=
  repeat (apply elem_of_cons in H as [H|H]; [try discriminate H |]);
  try (by apply elem_of_nil in H).

Lemma format_json_of (v : option string) : format (json_of v) = ret (shown v).
Proof. by destruct v. Qed.

Section ReportRuns.
Context `{E : Externals}.

(** [company_info_raw] in a world whose token file holds a record. *)
Lemma company_info_raw_with_record (w : world) (access refresh realm_id : option string) :
  files w !! "tokens.json" = Some (Json.dumps (token_record access refresh realm_id)) →
  company_info_raw w =
  (let* body := fetch_json (company_info_url (ENV w) (shown realm_id))
                  ("Bearer " +:+ shown access) in
   emit (Printed (Json.dumps body));;
   emit (Printed ("DEBUG URL: " +:+ company_info_url (ENV w) (shown realm_id)))) w.
Proof.
  intros Hf. unfold company_info_raw.
  rewrite (bind_quiet_ok _ _ _ _ (json_load_token_record w _ _ _ Hf)), bind_get_world.
  destruct (subscript_token_record access refresh realm_id) as (Ha & _ & Hr).
  rewrite Hr, bind_ret, format_json_of, bind_ret, Ha, bind_ret, format_json_of, bind_ret.
  unfold fetch_json. rewrite bind_assoc. apply bind_ext. intros r w'.
  by rewrite bind_assoc.
Qed.

Lemma get_transactions_with_record (w : world) (access refresh realm_id : option string)
    (t_start_date t_end_date : string) :
  files w !! "tokens.json" = Some (Json.dumps (token_record access refresh realm_id)) →
  get_transactions t_start_date t_end_date w =
  fetch_json (transactions_url (ENV w) (shown realm_id) t_start_date t_end_date)
    ("Bearer " +:+ shown access) w.
Proof.
  intros Hf. unfold get_transactions.
  rewrite (bind_quiet_ok _ _ _ _ (json_load_token_record w _ _ _ Hf)), bind_get_world.
  destruct (subscript_token_record access refresh realm_id) as (Ha & _ & Hr).
  rewrite Hr, bind_ret, format_json_of, bind_ret, Ha, bind_ret, format_json_of, bind_ret.
  unfold fetch_json. apply bind_ext. intros r w'.
  apply bind_ext. intros _ w''. apply bind_ret_r.
Qed.

(** A fetch asks for its URL once, and for nothing else. *)
Lemma fetch_json_requested (url authorization : string) (w : world) :
  requested (events (fetch_json url authorization w)) = [url].
Proof.
  rewrite fetch_json_run. destruct (requests_get url authorization) as [e|r]; [done |].
  destruct ((400 <=? status_code r) && (status_code r <? 600))%Z; [done |].
  by destruct (Json.loads (text r)).
Qed.

Lemma fetch_then_print_run (url authorization line : string) (w : world) :
  (let* body := fetch_json url authorization in
   emit (Printed (Json.dumps body));; emit (Printed line)) w =
  match requests_get url authorization with
  | inl e => Run (Raise e) w [HttpGet url authorization]
  | inr r =>
      if ((400 <=? status_code r) && (status_code r <? 600))%Z
      then Run (Raise (HTTPError (status_code r))) w
             [HttpGet url authorization; HttpReply (status_code r)]
      else
        match Json.loads (text r) with
        | Json.Value body =>
            Run (Ok tt) w
              [HttpGet url authorization; HttpReply (status_code r);
               Printed (Json.dumps body); Printed line]
        | Json.DecodeError =>
            Run (Raise JSONDecodeError) w
              [HttpGet url authorization; HttpReply (status_code r)]
        | Json.NotModelled =>
            Run (Raise (NotModelled "json")) w
              [HttpGet url authorization; HttpReply (status_code r)]
        end
  end.
Proof.
  unfold bind at 1. rewrite fetch_json_run.
  destruct (requests_get url authorization) as [e|r]; [done |].
  destruct ((400 <=? status_code r) && (status_code r <? 600))%Z; [done |].
  by destruct (Json.loads (text r)).
Qed.

Lemma fetch_then_print_requested (url authorization line : string) (w : world) :
  requested
    (events ((let* body := fetch_json url authorization in
              emit (Printed (Json.dumps body));; emit (Printed line)) w)) = [url].
Proof.
  rewrite fetch_then_print_run.
  destruct (requests_get url authorization) as [e|r]; [done |].
  destruct ((400 <=? status_code r) && (status_code r <? 600))%Z; [done |].
  by destruct (Json.loads (text r)).
Qed.

End ReportRuns.

(** C6.  The host that [company_info_raw] and [get_transactions] address
    is one function of [ENV]: the sandbox host when [ENV] is ["sandbox"],
    the production host otherwise.  Every URL that either operation
    requests starts with that host, and with a token record on file each
    requests exactly one URL, built on that host for the realm on file. *)
Theorem base_url_by_environment (E : Externals) (w : world)
    (t_start_date t_end_date : string) :
  api_host "sandbox" = "https://sandbox-quickbooks.api.intuit.com" ∧
  (∀ env, env ≠ "sandbox" → api_host env = "https://quickbooks.api.intuit.com") ∧
  Forall (λ url, ∃ realm, url = company_info_url (ENV w) realm)
    (requested (events (company_info_raw w))) ∧
  Forall (λ url, ∃ realm, url = transactions_url (ENV w) realm t_start_date t_end_date)
    (requested (events (get_transactions t_start_date t_end_date w))) ∧
  (∀ access refresh realm_id,
     files w !! "tokens.json" = Some (Json.dumps (token_record access refresh realm_id)) →
     requested (events (company_info_raw w))
       = [company_info_url (ENV w) (shown realm_id)] ∧
     requested (events (get_transactions t_start_date t_end_date w))
       = [transactions_url (ENV w) (shown realm_id) t_start_date t_end_date]).
Proof.
  split_and!.
  - reflexivity.
  - intros env Hne. unfold api_host. by rewrite (proj2 (String.eqb_neq _ _) Hne).
  - destruct (company_info_raw_cases w) as [[e ->]|(realm & access & ->)]; [constructor |].
    rewrite fetch_then_print_requested. repeat constructor. by exists realm.
  - destruct (get_transactions_cases t_start_date t_end_date w)
      as [[e ->]|(realm & access & ->)]; [constructor |].
    rewrite fetch_json_requested. repeat constructor. by exists realm.
  - intros access refresh realm_id Hf.
    rewrite (company_info_raw_with_record w _ _ _ Hf), fetch_then_print_requested.
    by rewrite (get_transactions_with_record w _ _ _ _ _ Hf), fetch_json_requested.
Qed.

Lemma base_url_by_environment_witness :
  requested (events (@company_info_raw
                       (sample_externals true {| status_code := 200; text := "{}" |})
                       tokens_world))
  = ["https://sandbox-quickbooks.api.intuit.com/v3/company/4620/companyinfo/4620?minorversion=75"] ∧
  requested (events (@get_transactions
                       (sample_externals true {| status_code := 200; text := "{}" |})
                       "2024-01-01" "2024-01-31" tokens_world))
  = ["https://sandbox-quickbooks.api.intuit.com/v3/company/4620/reports/TransactionList?start_date=2024-01-01&end_date=2024-01-31&minorversion=75"].
Proof.
  apply (proj2 (proj2 (proj2 (proj2
           (base_url_by_environment
              (sample_externals true {| status_code := 200; text := "{}" |})
              tokens_world "2024-01-01" "2024-01-31"))))
           (Some "AT") (Some "RT") (Some "4620")).
  reflexivity.
Defined.

(** C7 (as amended).  When the API answers the company-info request with
    a status from 400 to 599, [company_info_raw] raises [HTTPError] for
    that status; nothing is printed and the request is sent once only. *)
Theorem company_info_raises_on_error_status (E : Externals) (w : world) (s : Z) :
  HttpReply s ∈ events (company_info_raw w) →
  (400 ≤ s < 600)%Z →
  outcome (company_info_raw w) = Raise (HTTPError s) ∧
  Forall (λ e, is_print e = false) (events (company_info_raw w)) ∧
  length (List.filter is_http_get (events (company_info_raw w))) = 1%nat.
Proof.
  intros Hin Hs.
  destruct (company_info_raw_cases w) as [[e Hrun]|(realm & access & Hrun)];
    rewrite Hrun in *; cbn [events] in Hin; [by apply elem_of_nil in Hin |].
  revert Hin. rewrite fetch_then_print_run.
  destruct (requests_get _ _) as [e|r]; cbn [outcome final events];
    [intros Hin; in_events Hin |].
  destruct ((400 <=? status_code r) && (status_code r <? 600))%Z eqn:Hcond;
    cbn [outcome final events].
  - intros Hin. in_events Hin. injection Hin as ->.
    split_and!; [done | repeat constructor | done].
  - assert (s ≠ status_code r) as Hne.
    { intros ->. apply andb_false_iff in Hcond as [H|H];
        [apply Z.leb_gt in H | apply Z.ltb_ge in H]; lia. }
    destruct (Json.loads (text r)); cbn [outcome final events app];
      intros Hin; in_events Hin; injection Hin as ->; done.
Qed.

Lemma company_info_raises_on_error_status_witness :
  outcome (@company_info_raw
             (sample_externals true {| status_code := 404; text := "{}" |}) tokens_world)
  = Raise (HTTPError 404).
Proof.
  apply (company_info_raises_on_error_status
           (sample_externals true {| status_code := 404; text := "{}" |})
           tokens_world 404).
  - vm_compute. apply list_elem_of_further, list_elem_of_here.
  - lia.
Defined.

(** C7 as worded fails: an answer with status 300 and a JSON body is not
    an error for [raise_for_status]; the body is printed and the operation
    returns. *)
Lemma fails_on_every_non_2xx_counterexample : ¬ fails_on_every_non_2xx.
Proof.
  intros H.
  destruct (H (sample_externals true {| status_code := 300; text := "{}" |})
              tokens_world 300%Z) as [[e He] _].
  - vm_compute. apply list_elem_of_further, list_elem_of_here.
  - lia.
  - vm_compute in He. discriminate.
Qed.

Lemma callback_response_precedes_exchange_witness :
  let E := sample_externals false {| status_code := 200; text := "{}" |} in
  (outcome (@do_GET E (path callback) configured_world) = Raise (External "invalid_grant") ∧
   browser_output (events (@do_GET E (path callback) configured_world)) = ok_response ∧
   files (final (@do_GET E (path callback) configured_world)) = files configured_world) ∧
  @do_GET strict_url_externals "http://[/callback?code=a" configured_world
  = Run (Raise ValueError) configured_world [].
Proof.
  intros E. split.
  - apply (proj2 (proj2 (proj2 (proj2
             (callback_response_precedes_exchange E (path callback) configured_world))))
             (new_client configured_world "abc" "s3cret") (External "invalid_grant"));
      reflexivity.
  - apply (proj1 (proj2 (proj2
             (callback_response_precedes_exchange strict_url_externals
                "http://[/callback?code=a" configured_world)))
             ValueError).
    reflexivity.
Defined.

Lemma token_record_round_trip_witness :
  let E := sample_externals true {| status_code := 200; text := "{}" |} in
  outcome (json_load_file "tokens.json" (final (@do_GET E (path callback) configured_world)))
  = Ok (token_record (Some "AT") (Some "RT") (Some "4620")).
Proof.
  intros E.
  destruct (proj2 (proj2 (proj2 (proj2 (proj2
              (token_record_round_trip E configured_world None None None)))))
              (path callback) eq_refl) as (ac & Hac & Hload).
  rewrite Hload. vm_compute in Hac. injection Hac as <-. reflexivity.
Defined.

(** * Further properties of the script *)

(** ** The flattener *)

Lemma dict_get_update {V} (k : string) (d : Dict.t V) (l : list (string * V)) :
  Dict.get k (Dict.update d l) =
  match assoc_last k l with
  | Some v => Some v
  | None => Dict.get k d
  end.
Proof.
  revert d. induction l as [|[k' v] l IH]; intros d; [done |].
  rewrite update_cons, IH. cbn [assoc_last].
  destruct (assoc_last k l) as [x|]; [done |].
  rewrite dict_get_set. by destruct (decide (k' = k)).
Qed.

Lemma assoc_last_zip_NoDup {V} (cols : list string) (vals : list V) (i : nat) (title : string) :
  NoDup cols → cols !! i = Some title →
  assoc_last title (zip cols vals) = vals !! i.
Proof.
  intros Hnd. revert vals i. induction Hnd as [|c cols Hc Hnd IH]; intros vals i Hi; [done |].
  destruct vals as [|v vals].
  - by destruct i.
  - cbn [zip zip_with assoc_last]. destruct i as [|i]; cbn in Hi.
    + injection Hi as ->. rewrite decide_True by done.
      assert (assoc_last title (zip cols vals) = None) as ->; [|done].
      clear IH Hnd. revert vals. induction cols as [|c cols IHc]; intros vals; [done |].
      destruct vals as [|v' vals]; [done |]. cbn [zip zip_with assoc_last].
      rewrite IHc.
      * rewrite decide_False; [done |]. intros ->. apply Hc, list_elem_of_here.
      * intros Hin. apply Hc. by apply list_elem_of_further.
    + rewrite (IH vals i Hi). destruct (vals !! i) as [x|] eqn:Hx; [done |].
      rewrite decide_False; [done |]. intros ->.
      apply Hc. by eapply list_elem_of_lookup_2.
Qed.

Lemma parse_lookup (rj : report) (j : nat) (r : row) :
  data_rows rj !! j = Some r →
  parse_transaction_list rj !! j = Some (flatten_row (column_titles rj) r).
Proof.
  intros Hr. rewrite parse_transaction_list_eq.
  change (map ?f ?l) with (f <$> l). rewrite list_lookup_fmap.
  fold (data_rows rj). by rewrite Hr.
Qed.

(** X1.  Flattening keeps the order of the rows and works row by row: the
    records of a report whose rows are those of one report followed by
    those of another, under the same columns, are the records of the first
    followed by the records of the second. *)
Theorem flattener_concatenates (rj1 rj2 rj : report) :
  column_titles rj1 = column_titles rj →
  column_titles rj2 = column_titles rj →
  report_rows rj = report_rows rj1 ++ report_rows rj2 →
  parse_transaction_list rj = parse_transaction_list rj1 ++ parse_transaction_list rj2.
Proof.
  intros H1 H2 Hrows. rewrite !parse_transaction_list_eq, Hrows, H1, H2.
  by rewrite List.filter_app, List.map_app.
Qed.

Lemma flattener_concatenates_witness :
  parse_transaction_list
    (mk_report ["Date"; "Amount"]
       [mk_row "Data" ["2024-01-01"; "100.00"]; mk_row "Section" ["Total"];
        mk_row "Data" ["2024-01-02"; "7.50"]])
  = parse_transaction_list
      (mk_report ["Date"; "Amount"]
         [mk_row "Data" ["2024-01-01"; "100.00"]; mk_row "Section" ["Total"]])
    ++ parse_transaction_list
         (mk_report ["Date"; "Amount"] [mk_row "Data" ["2024-01-02"; "7.50"]]).
Proof. apply flattener_concatenates; reflexivity. Defined.

(** X2.  With distinct column titles the pairing is positional: in the
    record of a data row, the title of column [i] maps to the value of the
    row's cell [i], and is absent when the row has no cell [i]. *)
Theorem flattener_pairs_by_position (rj : report) (j i : nat) (r : row) (title : string) :
  NoDup (column_titles rj) →
  data_rows rj !! j = Some r →
  column_titles rj !! i = Some title →
  ∃ rec, parse_transaction_list rj !! j = Some rec ∧
         Dict.get title rec = row_values r !! i.
Proof.
  intros Hnd Hr Hi. eexists. split; [by apply parse_lookup |].
  unfold flatten_row, Dict.of_pairs. rewrite dict_get_update.
  rewrite (assoc_last_zip_NoDup _ _ _ _ Hnd Hi).
  by destruct (row_values r !! i).
Qed.

Lemma flattener_pairs_by_position_witness :
  ∃ rec, parse_transaction_list
           (mk_report ["Date"; "Amount"]
              [mk_row "Section" ["Total"]; mk_row "Data" ["2024-01-02"; "7.50"]])
           !! 0%nat = Some rec ∧
         Dict.get "Amount" rec = Some (Some "7.50").
Proof.
  apply (flattener_pairs_by_position
           (mk_report ["Date"; "Amount"]
              [mk_row "Section" ["Total"]; mk_row "Data" ["2024-01-02"; "7.50"]])
           0 1 (mk_row "Data" ["2024-01-02"; "7.50"]) "Amount").
  - repeat constructor; vm_compute; intros H; in_events H.
  - reflexivity.
  - reflexivity.
Defined.

(** X3.  When two columns carry the same title, the record has one key for
    it and the value of the last such column that has a cell: under every
    title the record holds the value of the last pair of title and cell. *)
Theorem flattener_last_duplicate_wins (rj : report) (j : nat) (r : row) (title : string) :
  data_rows rj !! j = Some r →
  ∃ rec, parse_transaction_list rj !! j = Some rec ∧
         Dict.get title rec = assoc_last title (zip (column_titles rj) (row_values r)).
Proof.
  intros Hr. eexists. split; [by apply parse_lookup |].
  unfold flatten_row, Dict.of_pairs. rewrite dict_get_update.
  by destruct (assoc_last _ _).
Qed.

Lemma flattener_last_duplicate_wins_witness :
  ∃ rec, parse_transaction_list
           (mk_report ["A"; "B"; "A"] [mk_row "Data" ["1"; "2"; "3"]]) !! 0%nat = Some rec ∧
         Dict.get "A" rec = Some (Some "3").
Proof.
  apply (flattener_last_duplicate_wins
           (mk_report ["A"; "B"; "A"] [mk_row "Data" ["1"; "2"; "3"]])
           0 (mk_row "Data" ["1"; "2"; "3"]) "A").
  reflexivity.
Defined.

Lemma flatten_rows_agree (cols : list string) (rs rs' : list row) :
  Forall2 (λ r r', type r = type r' ∧
                   take (length cols) (row_values r) = take (length cols) (row_values r'))
    rs rs' →
  map (flatten_row cols) (List.filter is_data_row rs)
  = map (flatten_row cols) (List.filter is_data_row rs').
Proof.
  induction 1 as [|r r' rs rs' [Hty Hvals] _ IH]; [done |].
  cbn [List.filter].
  assert (is_data_row r = is_data_row r') as -> by (unfold is_data_row; by rewrite Hty).
  destruct (is_data_row r'); [|done].
  cbn [map]. rewrite IH. f_equal.
  unfold flatten_row. f_equal.
  rewrite <- (zip_with_take_r _ cols (row_values r)).
  rewrite <- (zip_with_take_r _ cols (row_values r')).
  by rewrite Hvals.
Qed.

(** X4.  Cells beyond the last column are ignored: two reports with the
    same columns, whose rows agree in type and in their first cells, as
    many as there are columns, are flattened to the same records. *)
Theorem flattener_ignores_extra_cells (rj rj' : report) :
  column_titles rj = column_titles rj' →
  Forall2 (λ r r', type r = type r' ∧
                   take (length (column_titles rj)) (row_values r)
                   = take (length (column_titles rj)) (row_values r'))
    (report_rows rj) (report_rows rj') →
  parse_transaction_list rj = parse_transaction_list rj'.
Proof.
  intros Hcols Hrows. rewrite !parse_transaction_list_eq, <- Hcols.
  by apply flatten_rows_agree.
Qed.

Lemma flattener_ignores_extra_cells_witness :
  parse_transaction_list
    (mk_report ["Date"; "Amount"] [mk_row "Data" ["2024-01-02"; "7.50"; "spare"]])
  = parse_transaction_list
      (mk_report ["Date"; "Amount"] [mk_row "Data" ["2024-01-02"; "7.50"]]).
Proof.
  apply flattener_ignores_extra_cells; [reflexivity |].
  repeat constructor.
Defined.

(** ** Storing the keys and building the client *)

Lemma setkeys_run (typed_id typed_secret : string) (w : world) :
  setkeys typed_id typed_secret w =
  Run (Ok tt)
    {| environ := environ w;
       keyring := <[(SERVICE, "client_secret") := strip typed_secret]>
                    (<[(SERVICE, "client_id") := strip typed_id]> (keyring w));
       files := files w; auth_client := auth_client w; inbox := inbox w |}
    [Printed ("Saved to OS keychain under service: " +:+ SERVICE)].
Proof. reflexivity. Qed.

Lemma get_secret_outcome (name : string) (w : world) :
  outcome (_get_secret name w) =
  Ok (if truthy (environ w !! env_key name)
      then environ w !! env_key name
      else keyring w !! (SERVICE, name)).
Proof. rewrite get_secret_run. by destruct (truthy _). Qed.

(** X5.  What [setkeys] stores is what [_get_secret] finds: after
    [setkeys], a secret whose environment variable is absent or empty
    resolves to the text typed for it, stripped of surrounding white
    space. *)
Theorem setkeys_then_get_secret (typed_id typed_secret : string) (w : world) :
  missing (environ w !! "QBO_CLIENT_ID") →
  missing (environ w !! "QBO_CLIENT_SECRET") →
  outcome (_get_secret "client_id" (final (setkeys typed_id typed_secret w)))
    = Ok (Some (strip typed_id)) ∧
  outcome (_get_secret "client_secret" (final (setkeys typed_id typed_secret w)))
    = Ok (Some (strip typed_secret)).
Proof.
  intros Hid Hsecret. apply truthy_false_missing in Hid, Hsecret.
  rewrite setkeys_run, !get_secret_outcome. cbn [final environ keyring].
  change (env_key "client_id") with "QBO_CLIENT_ID".
  change (env_key "client_secret") with "QBO_CLIENT_SECRET".
  rewrite Hid, Hsecret. split.
  - by rewrite lookup_insert_ne, lookup_insert_eq.
  - by rewrite lookup_insert_eq.
Qed.

Lemma setkeys_then_get_secret_witness :
  outcome (_get_secret "client_id" (final (setkeys "  abc " "s3cret" empty_env_world)))
    = Ok (Some "abc").
Proof.
  apply (setkeys_then_get_secret "  abc " "s3cret" empty_env_world).
  - right. reflexivity.
  - left. reflexivity.
Defined.

(** X6.  [setkeys] followed by [get_auth_client]: when no client has been
    built, neither secret comes from the environment and both typed texts
    are more than white space, the constructor is called with the stripped
    texts, and when it returns the client built from them is returned. *)
Theorem setkeys_then_get_auth_client (E : Externals) (typed_id typed_secret : string)
    (w : world) :
  auth_client w = None →
  missing (environ w !! "QBO_CLIENT_ID") →
  missing (environ w !! "QBO_CLIENT_SECRET") →
  strip typed_id ≠ "" →
  strip typed_secret ≠ "" →
  NewAuthClient (strip typed_id) (strip typed_secret) (ENV w) (REDIRECT_URI w)
    ∈ events (get_auth_client (final (setkeys typed_id typed_secret w))) ∧
  (auth_client_init (strip typed_id) (strip typed_secret) (ENV w) (REDIRECT_URI w) = None →
   outcome (get_auth_client (final (setkeys typed_id typed_secret w)))
   = Ok (new_client w (strip typed_id) (strip typed_secret))).
Proof.
  intros Hac Hid Hsecret Hnid Hnsecret.
  destruct (setkeys_then_get_secret typed_id typed_secret w Hid Hsecret) as [H1 H2].
  rewrite (get_auth_client_fresh (final (setkeys typed_id typed_secret w)) _ _ Hac H1 H2).
  cbn zeta.
  apply truthy_Some in Hnid, Hnsecret. rewrite Hnid, Hnsecret. cbn [negb orb].
  change (default "" (Some ?x)) with x.
  change (ENV (final (setkeys typed_id typed_secret w))) with (ENV w).
  change (REDIRECT_URI (final (setkeys typed_id typed_secret w))) with (REDIRECT_URI w).
  destruct (auth_client_init _ _ _ _) as [e|]; cbn [events outcome].
  - split; [|done]. apply elem_of_app. right. apply list_elem_of_here.
  - split; [|done]. apply elem_of_app. right. apply list_elem_of_here.
Qed.

Lemma setkeys_then_get_auth_client_witness :
  outcome (@get_auth_client ok_externals (final (setkeys "  abc " "s3cret" empty_env_world)))
  = Ok (new_client empty_env_world "abc" "s3cret").
Proof.
  apply (proj2 (setkeys_then_get_auth_client ok_externals "  abc " "s3cret" empty_env_world
                  eq_refl (or_intror eq_refl) (or_introl eq_refl)
                  ltac:(discriminate) ltac:(discriminate))).
  reflexivity.
Defined.



Lemma get_auth_client_stored `{E : Externals} (w : world) (ac : AuthClient) :
  outcome (get_auth_client w) = Ok ac → auth_client (final (get_auth_client w)) = Some ac.
Proof.
  destruct (get_auth_client_cases w)
    as [(ac' & Hac & ->)|[(e & evs & _ & -> & H)|(ac' & evs & _ & -> & H)]];
    cbn; [|done|]; by intros [= ->].
Qed.

(** X8.  The client is built once: after a call of [get_auth_client] that
    returned a client, any later call returns that client without a
    lookup and without changing anything, whatever the environment and the
    vault hold by then. *)
Theorem get_auth_client_builds_once (E : Externals) (w w' : world) (ac : AuthClient) :
  outcome (get_auth_client w) = Ok ac →
  auth_client w' = auth_client (final (get_auth_client w)) →
  get_auth_client w' = Run (Ok ac) w' [].
Proof.
  intros Hok Hsame. apply get_auth_client_cached.
  rewrite Hsame. by apply get_auth_client_stored.
Qed.

Lemma get_auth_client_builds_once_witness :
  let w1 := final (@get_auth_client ok_externals configured_world) in
  let w2 := {| environ := ∅; keyring := ∅; files := files w1;
               auth_client := auth_client w1; inbox := [] |} in
  @get_auth_client ok_externals w2
  = Run (Ok (new_client configured_world "abc" "s3cret")) w2 [].
Proof.
  intros w1 w2.
  apply (get_auth_client_builds_once ok_externals configured_world w2); reflexivity.
Defined.

(** X9.  A call of [get_auth_client] that raises, whatever the exception
    (the configuration error, or what the constructor raised), stores no
    client and leaves the world as it was, so that a later call starts
    afresh; and only a call that finds no client stored can raise. *)
Theorem get_auth_client_failure (E : Externals) (w : world) (e : exn) :
  outcome (get_auth_client w) = Raise e →
  final (get_auth_client w) = w ∧
  auth_client w = None.
Proof.
  by destruct (get_auth_client_cases w)
    as [(ac' & Hac & ->)|[(e' & evs & Hnone & -> & H)|(ac' & evs & _ & -> & H)]].
Qed.

Lemma get_auth_client_failure_witness :
  final (@get_auth_client offline_externals configured_world) = configured_world ∧
  final (@get_auth_client ok_externals empty_vault_world) = empty_vault_world.
Proof.
  split.
  - apply (get_auth_client_failure offline_externals configured_world
             (External "ConnectionError")).
    reflexivity.
  - apply (get_auth_client_failure ok_externals empty_vault_world
             (SystemExit missing_keys_message)).
    reflexivity.
Defined.

(** ** The query of the callback *)

Lemma parse_qs_fold_get (name : string) (pairs : list (string * string))
    (d : Dict.t (list string)) :
  Dict.get name
    (fold_left
       (fun d nv =>
          match Dict.get nv.1 d with
          | Some vs => Dict.set nv.1 (vs ++ [nv.2]) d
          | None => Dict.set nv.1 [nv.2] d
          end) pairs d)
  = match Dict.get name d with
    | Some vs => Some (vs ++ query_values name pairs)
    | None => match query_values name pairs with
              | [] => None
              | vs => Some vs
              end
    end.
Proof.
  revert d. induction pairs as [|[n v] pairs IH]; intros d.
  - cbn. destruct (Dict.get name d); [by rewrite app_nil_r | done].
  - cbn [fold_left fst snd]. rewrite IH. unfold query_values. cbn [List.filter fst].
    destruct (decide (n = name)) as [->|Hne].
    + rewrite bool_decide_eq_true_2 by done. cbn [map snd].
      destruct (Dict.get name d) as [vs|]; rewrite dict_get_set, decide_True by done.
      * by rewrite <- app_assoc.
      * done.
    + rewrite bool_decide_eq_false_2 by done.
      destruct (Dict.get n d) as [vs|]; by rewrite dict_get_set, decide_False by done.
Qed.

(** X10.  [qs.get(name, [None])[0]] is the first value that the query
    gives to the name, and [None] when the query does not name it; the
    subscript never raises. *)
Theorem callback_parameter_is_first_value (name : string) (pairs : list (string * string)) :
  first (qs_get name (parse_qs pairs)) = ret (head (query_values name pairs)).
Proof.
  rewrite first_qs_get. f_equal. unfold query_value, parse_qs.
  rewrite parse_qs_fold_get. cbn [Dict.get Dict.empty].
  by destruct (query_values name pairs).
Qed.

Lemma query_value_head (name : string) (pairs : list (string * string)) :
  query_value name pairs = head (query_values name pairs).
Proof.
  unfold query_value, parse_qs. rewrite parse_qs_fold_get. cbn [Dict.get Dict.empty].
  by destruct (query_values name pairs).
Qed.

(** ** More on the callback handler and the login flow *)

Section CallbackMore.
Context `{E : Externals}.

Lemma get_auth_client_environ (w : world) :
  environ (final (get_auth_client w)) = environ w.
Proof.
  by destruct (get_auth_client_cases w)
    as [(ac & _ & ->)|[(e & evs & _ & -> & H)|(ac & evs & _ & -> & H)]].
Qed.

Lemma get_auth_client_keyring (w : world) :
  keyring (final (get_auth_client w)) = keyring w.
Proof.
  by destruct (get_auth_client_cases w)
    as [(ac & _ & ->)|[(e & evs & _ & -> & H)|(ac & evs & _ & -> & H)]].
Qed.

(** [do_GET] when the client has been built. *)
Lemma do_GET_cached (path : string) (w : world) (ac : AuthClient) :
  query_error path = None →
  auth_client w = Some ac →
  let code := query_value "code" (query_pairs path) in
  let realm_id := query_value "realmId" (query_pairs path) in
  do_GET path w =
  match token_endpoint ac code realm_id with
  | inl e => Run (Raise e) w (ok_response ++ [GetBearerToken code realm_id])
  | inr (access, refresh) =>
      Run (Ok tt) (world_with_tokens w ac access refresh realm_id)
        (ok_response ++ [GetBearerToken code realm_id; FileWrite "tokens.json"])
  end.
Proof.
  intros Hq Hac. cbn zeta. rewrite do_GET_run. cbn zeta. rewrite Hq.
  rewrite (get_auth_client_cached w ac Hac). cbn [outcome final events].
  by destruct (token_endpoint ac _ _) as [e|[access refresh]].
Qed.

(** [login] when the client is available and a [GET] request arrives
    whose target [urlparse] accepts. *)
Lemma login_served (w : world) (ac : AuthClient) (req : request) (rest : list request) :
  outcome (get_auth_client w) = Ok ac →
  inbox w = req :: rest →
  command req = "GET" →
  query_error (path req) = None →
  let code := query_value "code" (query_pairs (path req)) in
  let realm_id := query_value "realmId" (query_pairs (path req)) in
  let w1 := with_inbox (final (get_auth_client w)) rest in
  let before := events (get_auth_client w) ++ OpenBrowser (authorization_url ac)
                  :: ok_response in
  login w =
  match token_endpoint ac code realm_id with
  | inl e =>
      if is_Exception e
      then Run (Ok tt) w1 (before ++ [GetBearerToken code realm_id; HandleError e])
      else Run (Raise e) w1 (before ++ [GetBearerToken code realm_id])
  | inr (access, refresh) =>
      Run (Ok tt) (world_with_tokens w1 ac access refresh realm_id)
        (before ++ [GetBearerToken code realm_id; FileWrite "tokens.json"])
  end.
Proof.
  intros Hok Hin Hget Hq. cbn zeta. rewrite login_run. cbn zeta. rewrite Hok.
  assert (inbox (final (get_auth_client w)) = req :: rest) as Hin'
    by (by rewrite get_auth_client_inbox).
  rewrite (handle_request_run req rest _ Hin'). cbn zeta.
  unfold handle_one_request. rewrite Hget. cbn [String.eqb Ascii.eqb Bool.eqb].
  rewrite (do_GET_cached (path req) _ ac Hq) by (by apply get_auth_client_stored).
  cbn zeta.
  destruct (token_endpoint ac _ _) as [e|[access refresh]]; cbn [outcome final events].
  - destruct (is_Exception e); cbn [outcome final events];
      f_equal; unfold ok_response; cbn [app]; rewrite <- ?app_assoc; reflexivity.
  - f_equal. by rewrite <- app_assoc.
Qed.

End CallbackMore.

(** X11.  [login] without usable secrets stops at the configuration
    error: no browser is opened, no request is taken from the listener,
    the world is unchanged and only vault lookups have happened. *)
Theorem login_stops_without_secrets (E : Externals) (w : world) (cid cs : option string) :
  auth_client w = None →
  outcome (_get_secret "client_id" w) = Ok cid →
  outcome (_get_secret "client_secret" w) = Ok cs →
  missing cid ∨ missing cs →
  outcome (login w) = Raise (SystemExit missing_keys_message) ∧
  final (login w) = w ∧
  Forall (λ e, is_keyring_event e = true) (events (login w)).
Proof.
  intros Hac Hcid Hcs Hmiss. rewrite login_run. cbn zeta.
  rewrite (get_auth_client_fresh w cid cs Hac Hcid Hcs). cbn zeta.
  assert (negb (truthy cid) || negb (truthy cs) = true) as ->.
  { apply orb_true_iff. rewrite !negb_true_iff, !truthy_false_missing. done. }
  cbn [outcome final events]. split_and!; [done..|].
  apply Forall_app. split; apply get_secret_events.
Qed.

Lemma login_stops_without_secrets_witness :
  final (@login (sample_externals true {| status_code := 200; text := "{}" |})
           (with_inbox empty_vault_world [callback]))
  = with_inbox empty_vault_world [callback].
Proof.
  apply (login_stops_without_secrets
           (sample_externals true {| status_code := 200; text := "{}" |})
           (with_inbox empty_vault_world [callback]) (Some "") (Some "s3cret"));
    [reflexivity.. |].
  left. right. reflexivity.
Defined.

(** X12.  The handler works with the client that [login] built: after the
    events of the first [get_auth_client], a run of [login] has no vault
    lookup and builds no client. *)
Theorem login_handler_uses_built_client (E : Externals) (w : world) :
  ∃ rest, events (login w) = events (get_auth_client w) ++ rest ∧
          Forall (λ e, is_config_event e = false) rest.
Proof.
  rewrite login_run. cbn zeta.
  destruct (outcome (get_auth_client w)) as [ac| |] eqn:Hok; cbn [events];
    [|exists []; by rewrite app_nil_r..].
  eexists. split; [reflexivity |]. constructor; [done |].
  pose proof (get_auth_client_stored w ac Hok) as Hac.
  destruct (inbox (final (get_auth_client w))) as [|req rest] eqn:Hin.
  - rewrite (handle_request_idle _ Hin). constructor.
  - rewrite (handle_request_run req rest _ Hin). cbn zeta.
    assert (Forall (λ e, is_config_event e = false)
              (events (handle_one_request req (with_inbox (final (get_auth_client w)) rest))))
      as Hev.
    { destruct (String.eqb (command req) "GET") eqn:Hcmd.
      - unfold handle_one_request. rewrite Hcmd.
        destruct (query_error (path req)) as [e|] eqn:Hq.
        + rewrite (do_GET_refused (path req) _ e Hq). constructor.
        + rewrite (do_GET_cached (path req)
                     (with_inbox (final (get_auth_client w)) rest) ac Hq Hac).
          cbn zeta.
          destruct (token_endpoint ac _ _) as [e|[access refresh]]; repeat constructor.
      - rewrite (handle_one_request_other req _ Hcmd).
        destruct (String.eqb (command req) "HEAD"); repeat constructor. }
    destruct (outcome (handle_one_request req _)) as [[]|e|]; [done | | done].
    destruct (is_Exception e); [|done].
    cbn [events]. apply Forall_app. split; [done | repeat constructor].
Qed.

(** X13.  When the token endpoint raises an [Exception] while [login]
    serves a [GET] whose target [urlparse] accepts, the server logs it and
    [login] returns normally: the browser has its response, and the files
    are as they were. *)
Theorem login_survives_failed_exchange (E : Externals) (w : world) (ac : AuthClient)
    (req : request) (rest : list request) (e : exn) :
  outcome (get_auth_client w) = Ok ac →
  inbox w = req :: rest →
  command req = "GET" →
  query_error (path req) = None →
  token_endpoint ac (query_value "code" (query_pairs (path req)))
    (query_value "realmId" (query_pairs (path req))) = inl e →
  is_Exception e = true →
  outcome (login w) = Ok tt ∧
  HandleError e ∈ events (login w) ∧
  browser_output (events (login w)) = ok_response ∧
  files (final (login w)) = files w.
Proof.
  intros Hok Hin Hget Hq Htok Hexc.
  rewrite (login_served w ac req rest Hok Hin Hget Hq). cbn zeta.
  rewrite Htok, Hexc. cbn [outcome final events]. split_and!.
  - done.
  - rewrite !elem_of_app. right. apply list_elem_of_further, list_elem_of_here.
  - unfold browser_output. rewrite !List.filter_app.
    rewrite (filter_none _ _ (config_events_no_browser _ (get_auth_client_events w))).
    reflexivity.
  - cbn [with_inbox files]. apply get_auth_client_files.
Qed.

Lemma login_survives_failed_exchange_witness :
  outcome (@login (sample_externals false {| status_code := 200; text := "{}" |})
             login_world) = Ok tt.
Proof.
  apply (login_survives_failed_exchange
           (sample_externals false {| status_code := 200; text := "{}" |})
           login_world (new_client configured_world "abc" "s3cret")
           callback [callback] (External "invalid_grant"));
    reflexivity.
Defined.

(** X14.  When the exchange succeeds while [login] serves a [GET] whose
    target [urlparse] accepts, [login] returns with the tokens written to
    [tokens.json] (and to no other file) and stored on the client; the
    requests that came later are still waiting. *)
Theorem login_saves_tokens (E : Externals) (w : world) (ac : AuthClient)
    (req : request) (rest : list request) (access refresh : option string) :
  outcome (get_auth_client w) = Ok ac →
  inbox w = req :: rest →
  command req = "GET" →
  query_error (path req) = None →
  token_endpoint ac (query_value "code" (query_pairs (path req)))
    (query_value "realmId" (query_pairs (path req))) = inr (access, refresh) →
  outcome (login w) = Ok tt ∧
  files (final (login w))
    = <["tokens.json" :=
          Json.dumps (token_record access refresh
                        (query_value "realmId" (query_pairs (path req))))]> (files w) ∧
  auth_client (final (login w)) = Some (with_tokens ac access refresh) ∧
  inbox (final (login w)) = rest.
Proof.
  intros Hok Hin Hget Hq Htok.
  rewrite (login_served w ac req rest Hok Hin Hget Hq). cbn zeta.
  rewrite Htok. cbn [outcome final world_with_tokens with_inbox files auth_client inbox].
  by rewrite get_auth_client_files.
Qed.

Lemma login_saves_tokens_witness :
  files (final (@login (sample_externals true {| status_code := 200; text := "{}" |})
                  login_world))
  = <["tokens.json" := Json.dumps (token_record (Some "AT") (Some "RT") (Some "4620"))]>
      (files login_world).
Proof.
  apply (login_saves_tokens
           (sample_externals true {| status_code := 200; text := "{}" |})
           login_world (new_client configured_world "abc" "s3cret")
           callback [callback] (Some "AT") (Some "RT"));
    reflexivity.
Defined.

(** X15.  A request that is not a [GET] uses up the one request that
    [login] serves: [send_error] answers it with status 501 and, unless the
    command is [HEAD], with the page that says so; the token endpoint is not
    called, no file changes and [login] returns. *)
Theorem login_ignores_other_commands (E : Externals) (w : world) (ac : AuthClient)
    (req : request) (rest : list request) :
  outcome (get_auth_client w) = Ok ac →
  inbox w = req :: rest →
  command req ≠ "GET" →
  outcome (login w) = Ok tt ∧
  exchanges (events (login w)) = 0%nat ∧
  browser_output (events (login w))
    = SendResponse 501 :: EndHeaders
        :: (if String.eqb (command req) "HEAD" then []
            else [WfileWrite (error_page req)]) ∧
  files (final (login w)) = files w ∧
  inbox (final (login w)) = rest.
Proof.
  intros Hok Hin Hcmd. rewrite login_run. cbn zeta. rewrite Hok.
  assert (inbox (final (get_auth_client w)) = req :: rest) as Hin'
    by (by rewrite get_auth_client_inbox).
  rewrite (handle_request_run req rest _ Hin'). cbn zeta.
  rewrite (handle_one_request_other req _ (proj2 (String.eqb_neq _ _) Hcmd)).
  cbn [outcome final events with_inbox files inbox].
  pose proof (get_auth_client_events w) as Hev.
  split; [done |]. split; [|split; [|split]].
  - unfold exchanges. rewrite List.filter_app, (config_events_no_exchange _ Hev).
    by destruct (String.eqb (command req) "HEAD").
  - unfold browser_output.
    rewrite List.filter_app, (filter_none _ _ (config_events_no_browser _ Hev)).
    by destruct (String.eqb (command req) "HEAD").
  - apply get_auth_client_files.
  - done.
Qed.

Lemma login_ignores_other_commands_witness :
  outcome (@login ok_externals post_world) = Ok tt ∧
  browser_output (events (@login ok_externals post_world))
    = [SendResponse 501; EndHeaders; WfileWrite "Error response"] ∧
  inbox (final (@login ok_externals post_world)) = [callback].
Proof.
  pose proof (login_ignores_other_commands ok_externals
                post_world (new_client configured_world "abc" "s3cret")
                {| command := "POST"; path := "/callback" |} [callback]
                eq_refl eq_refl) as H.
  destruct H as (H1 & _ & H3 & _ & H5); [discriminate |]. by split.
Defined.

(** X16.  [do_GET] changes nothing but [tokens.json] and the client
    object: the environment, the vault, the waiting requests and every
    other file are as before, whatever the outcome. *)
Theorem do_GET_touches_only_token_file (E : Externals) (path : string) (w : world) :
  environ (final (do_GET path w)) = environ w ∧
  keyring (final (do_GET path w)) = keyring w ∧
  inbox (final (do_GET path w)) = inbox w ∧
  (∀ name, name ≠ "tokens.json" →
           files (final (do_GET path w)) !! name = files w !! name).
Proof.
  rewrite do_GET_run. cbn zeta.
  destruct (query_error path) as [e|]; [done |].
  pose proof (get_auth_client_environ w) as Henv.
  pose proof (get_auth_client_keyring w) as Hkey.
  pose proof (get_auth_client_inbox w) as Hin.
  pose proof (get_auth_client_files w) as Hfiles.
  destruct (outcome (get_auth_client w)) as [ac| |];
    [|cbn [final]; split_and!; [done..| intros; by rewrite Hfiles]..].
  destruct (token_endpoint ac _ _) as [e|[access refresh]];
    cbn [final world_with_tokens environ keyring inbox files].
  - split_and!; [done..| intros; by rewrite Hfiles].
  - split_and!; [done..|]. intros name Hne.
    rewrite lookup_insert_ne by done. by rewrite Hfiles.
Qed.

(** X17.  The handler does not check the query: whenever [urlparse]
    accepts the target and the client is available the token endpoint is
    called, with the first [code] and [realmId] of the query, and with
    [None] for one that the query does not name. *)
Theorem callback_is_not_validated (E : Externals) (path : string) (w : world)
    (ac : AuthClient) :
  query_error path = None →
  outcome (get_auth_client w) = Ok ac →
  GetBearerToken (head (query_values "code" (query_pairs path)))
                 (head (query_values "realmId" (query_pairs path)))
    ∈ events (do_GET path w).
Proof.
  intros Hq Hok. rewrite do_GET_run. cbn zeta. rewrite Hq, Hok, !query_value_head.
  destruct (token_endpoint ac _ _) as [e|[access refresh]]; cbn [events];
    rewrite !elem_of_app; right; right; apply list_elem_of_here.
Qed.

Lemma callback_is_not_validated_witness :
  GetBearerToken None None
    ∈ events (@do_GET bare_query_externals "/callback" configured_world).
Proof.
  apply (callback_is_not_validated bare_query_externals "/callback" configured_world
           (new_client configured_world "abc" "s3cret")); reflexivity.
Defined.

(** ** More on the report client *)

Lemma json_load_file_missing (name : string) (w : world) :
  files w !! name = None →
  json_load_file name w = Run (Raise (FileNotFoundError name)) w [].
Proof. intros Hf. unfold json_load_file. by rewrite bind_get_world, Hf. Qed.

Lemma json_load_file_object (name content : string) (v : json) (w : world) :
  files w !! name = Some content → Json.loads content = Json.Value v →
  json_load_file name w = Run (Ok v) w [].
Proof.
  intros Hf Hv. rewrite (json_load_file_run _ _ _ Hf). unfold json_loads. by rewrite Hv.
Qed.

(** X18.  Before a login there is no token file, and both report
    operations stop at once with [FileNotFoundError]: no request is sent
    and nothing is printed. *)
Theorem report_client_needs_token_file (E : Externals) (w : world)
    (t_start_date t_end_date : string) :
  files w !! "tokens.json" = None →
  company_info_raw w = Run (Raise (FileNotFoundError "tokens.json")) w [] ∧
  get_transactions t_start_date t_end_date w
    = Run (Raise (FileNotFoundError "tokens.json")) w [].
Proof.
  intros Hf. pose proof (json_load_file_missing "tokens.json" w Hf) as Hload.
  split.
  - unfold company_info_raw. by rewrite (bind_raise _ _ _ _ _ _ Hload).
  - unfold get_transactions. by rewrite (bind_raise _ _ _ _ _ _ Hload).
Qed.

Lemma report_client_needs_token_file_witness :
  @company_info_raw (sample_externals true {| status_code := 200; text := "{}" |})
    configured_world
  = Run (Raise (FileNotFoundError "tokens.json")) configured_world [].
Proof.
  apply (report_client_needs_token_file
           (sample_externals true {| status_code := 200; text := "{}" |})
           configured_world "2024-01-01" "2024-01-31").
  reflexivity.
Defined.

(** X19.  A token file that is a JSON object without [realm_id] makes both
    report operations raise [KeyError] for that key before any request is
    sent. *)
Theorem report_client_needs_realm_id (E : Externals) (w : world)
    (content : string) (members : list (string * json))
    (t_start_date t_end_date : string) :
  files w !! "tokens.json" = Some content →
  Json.loads content = Json.Value (JObj members) →
  Dict.get "realm_id" members = None →
  company_info_raw w = Run (Raise (KeyError "realm_id")) w [] ∧
  get_transactions t_start_date t_end_date w = Run (Raise (KeyError "realm_id")) w [].
Proof.
  intros Hf Hv Hkey.
  pose proof (json_load_file_object _ _ _ _ Hf Hv) as Hload.
  assert (subscript (JObj members) "realm_id" w = Run (Raise (KeyError "realm_id")) w [])
    as Hsub by (cbn [subscript]; by rewrite Hkey).
  split.
  - unfold company_info_raw.
    rewrite (bind_quiet_ok _ _ _ _ Hload), bind_get_world.
    by rewrite (bind_raise _ _ _ _ _ _ Hsub).
  - unfold get_transactions.
    rewrite (bind_quiet_ok _ _ _ _ Hload), bind_get_world.
    by rewrite (bind_raise _ _ _ _ _ _ Hsub).
Qed.

Lemma report_client_needs_realm_id_witness :
  @company_info_raw (sample_externals true {| status_code := 200; text := "{}" |})
    empty_record_world
  = Run (Raise (KeyError "realm_id")) empty_record_world [].
Proof.
  apply (report_client_needs_realm_id
           (sample_externals true {| status_code := 200; text := "{}" |})
           empty_record_world "{}" [] "2024-01-01" "2024-01-31"); reflexivity.
Defined.

Section ReportMore.
Context `{E : Externals}.

Lemma fetch_json_final (url authorization : string) (w : world) :
  final (fetch_json url authorization w) = w.
Proof.
  rewrite fetch_json_run. destruct (requests_get url authorization) as [e|r]; [done |].
  destruct ((400 <=? status_code r) && (status_code r <? 600))%Z; [done |].
  by destruct (Json.loads (text r)).
Qed.

Lemma fetch_json_no_print (url authorization : string) (w : world) :
  List.filter is_print (events (fetch_json url authorization w)) = [].
Proof.
  rewrite fetch_json_run. destruct (requests_get url authorization) as [e|r]; [done |].
  destruct ((400 <=? status_code r) && (status_code r <? 600))%Z; [done |].
  by destruct (Json.loads (text r)).
Qed.

End ReportMore.

(** X20.  The report operations only read: after [company_info_raw] and
    after [get_transactions] the world (environment, vault, files, client,
    waiting requests) is the one before, whatever the outcome. *)
Theorem report_client_is_read_only (E : Externals) (w : world)
    (t_start_date t_end_date : string) :
  final (company_info_raw w) = w ∧
  final (get_transactions t_start_date t_end_date w) = w.
Proof.
  split.
  - destruct (company_info_raw_cases w) as [[e ->]|(realm & access & ->)]; [done |].
    rewrite fetch_then_print_run.
    destruct (requests_get _ _) as [e|r]; [done |].
    destruct ((400 <=? status_code r) && (status_code r <? 600))%Z; [done |].
    by destruct (Json.loads (text r)).
  - destruct (get_transactions_cases t_start_date t_end_date w)
      as [[e ->]|(realm & access & ->)]; [done |].
    apply fetch_json_final.
Qed.

(** X21.  [company_info_raw] prints exactly when it succeeds: a run that
    returns has printed two lines, the decoded body of the answer and the
    URL it asked for; a run that raises an exception of the program (the
    token file missing or without a key, the request failing, a status from
    400 to 599, a body that is no JSON text) has printed nothing. *)
Theorem company_info_prints_on_success_only (E : Externals) (w : world) :
  (outcome (company_info_raw w) = Ok tt →
   ∃ url authorization r body,
     requests_get url authorization = inr r ∧
     Json.loads (text r) = Json.Value body ∧
     events (company_info_raw w)
     = [HttpGet url authorization; HttpReply (status_code r);
        Printed (Json.dumps body); Printed ("DEBUG URL: " +:+ url)]) ∧
  (∀ e, outcome (company_info_raw w) = Raise e →
        (∀ what, e ≠ NotModelled what) →
        List.filter is_print (events (company_info_raw w)) = []).
Proof.
  destruct (company_info_raw_cases w) as [[e ->]|(realm & access & ->)]; [done |].
  rewrite fetch_then_print_run.
  destruct (requests_get _ _) as [e|r] eqn:Hget; [done |].
  destruct ((400 <=? status_code r) && (status_code r <? 600))%Z; [done |].
  destruct (Json.loads (text r)) as [body| |] eqn:Hbody; [|done..].
  split; [|done]. intros _. by eexists _, _, r, body.
Qed.

Lemma company_info_prints_on_success_only_witness :
  (∃ url authorization r body,
     @requests_get ok_externals url authorization = inr r ∧
     Json.loads (text r) = Json.Value body ∧
     events (@company_info_raw ok_externals tokens_world)
     = [HttpGet url authorization; HttpReply (status_code r);
        Printed (Json.dumps body); Printed ("DEBUG URL: " +:+ url)]) ∧
  List.filter is_print (events (@company_info_raw unreachable_api tokens_world)) = [].
Proof.
  split.
  - apply (proj1 (company_info_prints_on_success_only ok_externals tokens_world)).
    reflexivity.
  - apply (proj2 (company_info_prints_on_success_only unreachable_api tokens_world)
             (External "ConnectionError")); [reflexivity | discriminate].
Defined.

(** X22.  [get_transactions] never prints, and what it returns is the
    decoded body of the answer to its one request, an answer whose status
    is not from 400 to 599. *)
Theorem get_transactions_returns_decoded_body (E : Externals) (w : world)
    (t_start_date t_end_date : string) :
  List.filter is_print (events (get_transactions t_start_date t_end_date w)) = [] ∧
  (∀ data,
     outcome (get_transactions t_start_date t_end_date w) = Ok data →
     ∃ url authorization r,
       events (get_transactions t_start_date t_end_date w)
         = [HttpGet url authorization; HttpReply (status_code r)] ∧
       requests_get url authorization = inr r ∧
       ¬ (400 ≤ status_code r < 600)%Z ∧
       Json.loads (text r) = Json.Value data).
Proof.
  destruct (get_transactions_cases t_start_date t_end_date w)
    as [[e ->]|(realm & access & ->)]; [done |].
  split; [apply fetch_json_no_print |].
  intros data. rewrite fetch_json_run.
  destruct (requests_get _ _) as [e|r] eqn:Hget; [done |].
  destruct ((400 <=? status_code r) && (status_code r <? 600))%Z eqn:Hcond; [done |].
  destruct (Json.loads (text r)) as [body| |] eqn:Hbody; [|done..].
  intros [= <-]. eexists _, _, r. split_and!; [done | done | | done].
  apply andb_false_iff in Hcond as [H|H];
    [apply Z.leb_gt in H | apply Z.ltb_ge in H]; lia.
Qed.

Lemma get_transactions_returns_decoded_body_witness :
  ∃ url authorization r,
    events (@get_transactions
              (sample_externals true {| status_code := 200; text := "{}" |})
              "2024-01-01" "2024-01-31" tokens_world)
      = [HttpGet url authorization; HttpReply (status_code r)] ∧
    @requests_get (sample_externals true {| status_code := 200; text := "{}" |})
      url authorization = inr r ∧
    ¬ (400 ≤ status_code r < 600)%Z ∧
    Json.loads (text r) = Json.Value (JObj []).
Proof.
  apply (proj2 (get_transactions_returns_decoded_body
                  (sample_externals true {| status_code := 200; text := "{}" |})
                  tokens_world "2024-01-01" "2024-01-31")).
  reflexivity.
Defined.

(** X23.  When the API answers the transaction-list request with a status
    from 400 to 599, [get_transactions] raises [HTTPError] for that status
    after a single request. *)
Theorem get_transactions_raises_on_error_status (E : Externals) (w : world)
    (t_start_date t_end_date : string) (s : Z) :
  HttpReply s ∈ events (get_transactions t_start_date t_end_date w) →
  (400 ≤ s < 600)%Z →
  outcome (get_transactions t_start_date t_end_date w) = Raise (HTTPError s) ∧
  length (List.filter is_http_get (events (get_transactions t_start_date t_end_date w)))
    = 1%nat.
Proof.
  intros Hin Hs.
  destruct (get_transactions_cases t_start_date t_end_date w)
    as [[e Hrun]|(realm & access & Hrun)];
    rewrite Hrun in *; cbn [events] in Hin; [by apply elem_of_nil in Hin |].
  revert Hin. rewrite fetch_json_run.
  destruct (requests_get _ _) as [e|r]; cbn [outcome final events];
    [intros Hin; in_events Hin |].
  destruct ((400 <=? status_code r) && (status_code r <? 600))%Z eqn:Hcond;
    cbn [outcome final events].
  - intros Hin. in_events Hin. by injection Hin as ->.
  - assert (s ≠ status_code r) as Hne.
    { intros ->. apply andb_false_iff in Hcond as [H|H];
        [apply Z.leb_gt in H | apply Z.ltb_ge in H]; lia. }
    destruct (Json.loads (text r)); cbn [outcome final events app];
      intros Hin; in_events Hin; injection Hin as ->; done.
Qed.

Lemma get_transactions_raises_on_error_status_witness :
  outcome (@get_transactions
             (sample_externals true {| status_code := 503; text := "" |})
             "2024-01-01" "2024-01-31" tokens_world)
  = Raise (HTTPError 503).
Proof.
  apply (get_transactions_raises_on_error_status
           (sample_externals true {| status_code := 503; text := "" |})
           tokens_world "2024-01-01" "2024-01-31" 503).
  - vm_compute. apply list_elem_of_further, list_elem_of_here.
  - lia.
Defined.

(** X24.  An exception of [requests.get] itself (no connection, a
    timeout) leaves both report operations as it is: nothing is printed
    and there is no second request. *)
Theorem report_client_propagates_request_errors (E : Externals) (w : world)
    (t_start_date t_end_date : string) (url authorization : string) (e : exn) :
  requests_get url authorization = inl e →
  (HttpGet url authorization ∈ events (company_info_raw w) →
   company_info_raw w = Run (Raise e) w [HttpGet url authorization]) ∧
  (HttpGet url authorization ∈ events (get_transactions t_start_date t_end_date w) →
   get_transactions t_start_date t_end_date w
   = Run (Raise e) w [HttpGet url authorization]).
Proof.
  intros Hget. split.
  - destruct (company_info_raw_cases w) as [[e' ->]|(realm & access & ->)];
      [intros Hin; in_events Hin |].
    rewrite fetch_then_print_run.
    destruct (requests_get (company_info_url _ _) _) as [e'|r] eqn:Hreq.
    + intros Hin. in_events Hin. injection Hin as -> ->. congruence.
    + destruct ((400 <=? status_code r) && (status_code r <? 600))%Z;
        [|destruct (Json.loads (text r))];
        intros Hin; in_events Hin; injection Hin as -> ->; congruence.
  - destruct (get_transactions_cases t_start_date t_end_date w)
      as [[e' ->]|(realm & access & ->)];
      [intros Hin; in_events Hin |].
    rewrite fetch_json_run.
    destruct (requests_get (transactions_url _ _ _ _) _) as [e'|r] eqn:Hreq.
    + intros Hin. in_events Hin. injection Hin as -> ->. congruence.
    + destruct ((400 <=? status_code r) && (status_code r <? 600))%Z;
        [|destruct (Json.loads (text r))];
        intros Hin; in_events Hin; injection Hin as -> ->; congruence.
Qed.

Lemma report_client_propagates_request_errors_witness :
  ∃ url authorization,
    @company_info_raw unreachable_api tokens_world
    = Run (Raise (External "ConnectionError")) tokens_world [HttpGet url authorization].
Proof.
  eexists _, _.
  apply (proj1 (report_client_propagates_request_errors unreachable_api tokens_world
                  "2024-01-01" "2024-01-31" _ _ (External "ConnectionError") eq_refl)).
  vm_compute. apply list_elem_of_here.
Defined.

(** X25.  Login and report compose through the token file: after a
    callback that ended well, [company_info_raw] asks for the company of
    the callback's realm at the host of [ENV], with the access token of
    the exchange as bearer; a callback without [realmId] makes it ask for
    the company [None]. *)
Theorem callback_then_company_info (E : Externals) (path : string) (w : world) :
  outcome (do_GET path w) = Ok tt →
  ∃ ac rest,
    auth_client (final (do_GET path w)) = Some ac ∧
    events (company_info_raw (final (do_GET path w)))
    = HttpGet (company_info_url (ENV w)
                 (shown (head (query_values "realmId" (query_pairs path)))))
              ("Bearer " +:+ shown (access_token ac)) :: rest.
Proof.
  intros Hok.
  destruct (do_GET_saved path w Hok) as (ac & access & refresh & _ & _ & ->).
  rewrite (company_info_raw_with_record _ access refresh
             (query_value "realmId" (query_pairs path)))
    by apply lookup_insert_eq.
  rewrite fetch_then_print_run, query_value_head.
  assert (ENV (world_with_tokens (final (get_auth_client w)) ac access refresh
                 (head (query_values "realmId" (query_pairs path)))) = ENV w) as ->.
  { unfold ENV. cbn [world_with_tokens environ]. by rewrite get_auth_client_environ. }
  exists (with_tokens ac access refresh).
  destruct (requests_get _ _) as [e|r]; [by eexists |].
  destruct ((400 <=? status_code r) && (status_code r <? 600))%Z; [by eexists |].
  destruct (Json.loads (text r)); by eexists.
Qed.

Lemma callback_then_company_info_witness :
  ∃ ac rest,
    auth_client (final (@do_GET unreachable_api "/callback" configured_world)) = Some ac ∧
    events (@company_info_raw unreachable_api
              (final (@do_GET unreachable_api "/callback" configured_world)))
    = HttpGet (company_info_url (ENV configured_world) "None")
              ("Bearer " +:+ shown (access_token ac)) :: rest.
Proof.
  apply (callback_then_company_info unreachable_api "/callback" configured_world).
  reflexivity.
Defined.

(** ** The SDK query *)

Section SdkQuery.
Context `{E : Externals} `{S : Sdk}.

(** X26.  [company_info_sdk] reads the token file before it looks for the
    secrets: without the file it raises [FileNotFoundError] and no vault
    lookup has happened; with the file, an exception of [get_auth_client]
    (the configuration error, or what the constructor raised) is raised
    on, and in neither case is anything printed. *)
Theorem company_info_sdk_fails_early (w : world) :
  (files w !! "tokens.json" = None →
   company_info_sdk w = Run (Raise (FileNotFoundError "tokens.json")) w []) ∧
  (∀ access refresh realm_id e,
     files w !! "tokens.json" = Some (Json.dumps (token_record access refresh realm_id)) →
     outcome (get_auth_client w) = Raise e →
     outcome (company_info_sdk w) = Raise e ∧
     final (company_info_sdk w) = w ∧
     List.filter is_print (events (company_info_sdk w)) = []).
Proof.
  split.
  - intros Hf. unfold company_info_sdk.
    by rewrite (bind_raise _ _ _ _ _ _ (json_load_file_missing _ _ Hf)).
  - intros access refresh realm_id e Hf Hraise. unfold company_info_sdk.
    rewrite (bind_quiet_ok _ _ _ _ (json_load_token_record w _ _ _ Hf)).
    destruct (get_auth_client_cases w)
      as [(ac & _ & Hrun)|[(e' & evs & _ & Hrun & Hev)|(ac & evs & _ & Hrun & _)]];
      rewrite Hrun in Hraise; try discriminate.
    cbn [outcome] in Hraise. injection Hraise as ->.
    rewrite (bind_raise _ _ _ _ _ _ Hrun). cbn [outcome final events].
    split; [done |]. split; [done |].
    apply filter_none. eapply Forall_impl; [done |]. by intros [].
Qed.

(** X27.  With a token record on file and the client available,
    [company_info_sdk] hands the client, the refresh token and the realm
    on file to the SDK and prints the rows it gets as one JSON text; an
    exception of the SDK is raised on and nothing is printed. *)
Theorem company_info_sdk_run (w : world) (access refresh realm_id : option string)
    (ac : AuthClient) :
  files w !! "tokens.json" = Some (Json.dumps (token_record access refresh realm_id)) →
  outcome (get_auth_client w) = Ok ac →
  company_info_sdk w =
  match quickbooks_query ac (json_of refresh) (json_of realm_id) account_query with
  | inl e => Run (Raise e) (final (get_auth_client w)) (events (get_auth_client w))
  | inr rows =>
      Run (Ok tt) (final (get_auth_client w))
        (events (get_auth_client w) ++ [Printed (Json.dumps rows)])
  end.
Proof.
  intros Hf Hok. unfold company_info_sdk.
  rewrite (bind_quiet_ok _ _ _ _ (json_load_token_record w _ _ _ Hf)).
  destruct (get_auth_client w) as [o w1 evs] eqn:Hrun. cbn [outcome final events] in *.
  subst o. rewrite (bind_ok _ _ _ _ _ _ Hrun).
  destruct (subscript_token_record access refresh realm_id) as (_ & Hr & Hrealm).
  rewrite Hr, bind_ret, Hrealm, bind_ret. fold account_query.
  destruct (quickbooks_query ac _ _ _) as [e|rows]; cbn [outcome final events raise emit].
  - by rewrite app_nil_r.
  - done.
Qed.

End SdkQuery.

Lemma company_info_sdk_fails_early_witness :
  @company_info_sdk ok_externals empty_sdk configured_world
  = Run (Raise (FileNotFoundError "tokens.json")) configured_world [] ∧
  outcome (@company_info_sdk offline_externals empty_sdk ready_world)
  = Raise (External "ConnectionError").
Proof.
  split.
  - apply (proj1 (@company_info_sdk_fails_early ok_externals empty_sdk configured_world)).
    reflexivity.
  - apply (proj2 (@company_info_sdk_fails_early offline_externals empty_sdk ready_world)
             (Some "AT") (Some "RT") (Some "4620") (External "ConnectionError"));
      reflexivity.
Defined.

Lemma company_info_sdk_run_witness :
  outcome (@company_info_sdk ok_externals empty_sdk ready_world) = Ok tt ∧
  List.filter is_print (events (@company_info_sdk ok_externals empty_sdk ready_world))
  = [Printed "[]"].
Proof.
  rewrite (@company_info_sdk_run ok_externals empty_sdk ready_world
             (Some "AT") (Some "RT") (Some "4620")
             (new_client configured_world "abc" "s3cret") eq_refl eq_refl).
  split; reflexivity.
Defined.

(** ** The command line *)

Section CommandLine.
Context `{E : Externals} `{S : Sdk}.

Lemma main_command (argv : list string) (cmd : string) :
  argv !! 1%nat = Some cmd →
  (if (1 <? length argv)%nat then default "login" (argv !! 1%nat) else "login") = cmd.
Proof.
  intros Hcmd. pose proof (lookup_lt_Some _ _ _ Hcmd) as Hlen.
  rewrite (proj2 (Nat.ltb_lt _ _) Hlen), Hcmd. reflexivity.
Qed.

(** X28.  A command that is none of [login], [whoami], [query],
    [setkeys], [tx], [parse] (compared in lower case) prints the usage
    line and does nothing else. *)
Theorem main_unknown_command (argv : list string) (cmd typed_id typed_secret : string)
    (w : world) :
  argv !! 1%nat = Some cmd →
  lower cmd ∉ known_commands →
  main argv typed_id typed_secret w = Finished (Run (Ok tt) w [Printed usage]).
Proof.
  intros Hcmd Hnot. unfold main. rewrite (main_command argv cmd Hcmd).
  assert (∀ c, c ∈ known_commands → String.eqb (lower cmd) c = false) as Hneq.
  { intros c Hc. apply String.eqb_neq. intros Heq. apply Hnot. by rewrite Heq. }
  rewrite !Hneq; [reflexivity |..]; unfold known_commands;
    repeat (first [apply list_elem_of_here | apply list_elem_of_further]).
Qed.

(** X29.  [tx] needs two dates: with fewer than four words on the command
    line it raises [IndexError] before anything happens.  With the dates
    it runs [get_transactions] and drops the report: the command prints
    nothing. *)
Theorem main_tx (argv : list string) (cmd typed_id typed_secret : string) (w : world) :
  argv !! 1%nat = Some cmd →
  lower cmd = "tx" →
  ((length argv < 4)%nat →
   main argv typed_id typed_secret w = Finished (Run (Raise IndexError) w [])) ∧
  (∀ t_start_date t_end_date,
     argv !! 2%nat = Some t_start_date → argv !! 3%nat = Some t_end_date →
     ∃ r, main argv typed_id typed_secret w = Finished r ∧
          events r = events (get_transactions t_start_date t_end_date w) ∧
          List.filter is_print (events r) = []).
Proof.
  intros Hcmd Htx. unfold main. rewrite (main_command argv cmd Hcmd), Htx.
  cbn [String.eqb Ascii.eqb Bool.eqb andb]. split.
  - intros Hlen. f_equal. unfold argv_at.
    destruct (argv !! 2%nat) as [a|] eqn:H2; [|reflexivity].
    rewrite bind_ret.
    assert (argv !! 3%nat = None) as -> by (apply lookup_ge_None; lia).
    reflexivity.
  - intros t_start_date t_end_date H2 H3. eexists. split; [reflexivity |].
    unfold argv_at. rewrite H2, H3, !bind_ret.
    assert (events ((get_transactions t_start_date t_end_date;; ret tt) w)
            = events (get_transactions t_start_date t_end_date w)) as ->.
    { unfold bind. destruct (get_transactions t_start_date t_end_date w) as [[d| |] w1 evs];
        cbn; [by rewrite app_nil_r | done..]. }
    split; [done |].
    destruct (get_transactions_cases t_start_date t_end_date w)
      as [[e ->]|(realm & access & ->)]; [done |].
    apply fetch_json_no_print.
Qed.

End CommandLine.

Lemma main_unknown_command_witness :
  @main (sample_externals true {| status_code := 200; text := "{}" |}) empty_sdk
    ["qbo_min.py"; "Help"] "" "" configured_world
  = Finished (Run (Ok tt) configured_world [Printed usage]).
Proof.
  apply (@main_unknown_command
           (sample_externals true {| status_code := 200; text := "{}" |}) empty_sdk
           ["qbo_min.py"; "Help"] "Help" "" "" configured_world eq_refl).
  vm_compute. intros H. in_events H.
Defined.

Lemma main_tx_witness :
  @main (sample_externals true {| status_code := 200; text := "{}" |}) empty_sdk
    ["qbo_min.py"; "TX"; "2024-01-01"] "" "" tokens_world
  = Finished (Run (Raise IndexError) tokens_world []).
Proof.
  apply (proj1 (@main_tx
                  (sample_externals true {| status_code := 200; text := "{}" |}) empty_sdk
                  ["qbo_min.py"; "TX"; "2024-01-01"] "TX" "" "" tokens_world
                  eq_refl eq_refl)).
  cbn. lia.
Defined.
